(** * PDF Merger: the page-exclusion parser and the sequential merge

    A shallow embedding of [project1.py]: the [MergeWorker] thread
    ([__init__], [run]) and the handlers of [PdfMergerApp] that feed it
    ([add_pdf], [get_files], [update_page_count], [update_buttons],
    [apply_page_removal], [remove_selected], [merge_pdfs]).

    Python values are modelled as follows.
    - [int] is [Z]; [str] is [string], one [ascii] per code point, so the
      strings covered are those over code points 0..255;
    - [float] is binary64 with its rounding written out on integers,
      and checked against the machine's floats;
    - the one [set] object of the application lives in a store of set
      objects and is named by its location: the application and the
      worker thread both hold the location, not a copy;
    - an exception is a value of type [exn]; code that can raise runs in
      the monad [py St], which keeps the state reached when it raises;
    - PyPDF2 is an interface ([PdfLibrary]): what a reader makes of the
      bytes of a file, and the bytes a writer emits for a page list;
    - a write at a path goes through, or is refused when the file is
      opened, or breaks off once the file has been opened, as the file
      system of the model says for that path;
    - memory is unbounded: a [range] of any length fits in the set. *)

From Stdlib Require Import ZArith Ascii String Strings.Byte Floats.
From stdpp Require Import gmap strings list pretty.

Open Scope Z_scope.
Open Scope string_scope.

(** ** Exceptions and the state-and-exception monad *)

Inductive exn : Type :=
  | ValueError
  | ZeroDivisionError
  | OverflowError
  | FileNotFoundError (path : string)
  | PermissionError (path : string)
  | OSError (path : string)
  | PdfReadError (msg : string).

Inductive result (A : Type) : Type :=
  | Ok (a : A)
  | Raise (e : exn).
Arguments Ok {A} a.
Arguments Raise {A} e.

(** A computation over a mutable state [St]: it ends in a value or in an
    exception, and in both cases hands back the state it reached (Python
    does not roll back the mutations made before a [raise]). *)
Definition py (St A : Type) : Type := St → St * result A.

Definition py_ret {St A} (a : A) : py St A := λ s, (s, Ok a).

Definition py_bind {St A B} (m : py St A) (k : A → py St B) : py St B :=
  λ s, match m s with
       | (s', Ok a) => k a s'
       | (s', Raise e) => (s', Raise e)
       end.

Definition py_raise {St A} (e : exn) : py St A := λ s, (s, Raise e).

(** [try: body  except Exception as e: handler e] *)
Definition try_except {St A} (body : py St A) (handler : exn → py St A) : py St A :=
  λ s, match body s with
       | (s', Ok a) => (s', Ok a)
       | (s', Raise e) => handler e s'
       end.

Definition py_get {St} : py St St := λ s, (s, Ok s).
Definition py_modify {St} (f : St → St) : py St unit := λ s, (f s, Ok tt).
Definition py_lift {St A} (r : result A) : py St A := λ s, (s, r).

Declare Scope py_scope.
Delimit Scope py_scope with py.
Notation "x <- m ;; k" := (py_bind m (λ x, k))
  (at level 100, m at next level, right associativity) : py_scope.
Notation "m ;;; k" := (py_bind m (λ _, k))
  (at level 100, right associativity) : py_scope.

(** [for x in xs: body x] *)
Fixpoint for_each {St A} (xs : list A) (body : A → py St unit) : py St unit :=
  match xs with
  | [] => py_ret tt
  | x :: rest => (body x ;;; for_each rest body)%py
  end.

(** ** Strings *)

(** [s.replace(" ", "")] *)
Fixpoint remove_spaces (s : string) : string :=
  match s with
  | EmptyString => EmptyString
  | String c rest =>
      if Ascii.eqb c " "%char then remove_spaces rest else String c (remove_spaces rest)
  end.

(** [s.split(sep)] for a separator of one character: every occurrence
    cuts, so the result has one more piece than [s] has separators and
    pieces may be empty. *)
Fixpoint split (sep : ascii) (s : string) : list string :=
  match s with
  | EmptyString => [EmptyString]
  | String c rest =>
      if Ascii.eqb c sep then EmptyString :: split sep rest
      else match split sep rest with
           | piece :: pieces => String c piece :: pieces
           | [] => [String c EmptyString]
           end
  end.

(** [c in s] *)
Fixpoint contains (c : ascii) (s : string) : bool :=
  match s with
  | EmptyString => false
  | String d rest => Ascii.eqb d c || contains c rest
  end.

(** [s.split(sep)[0]] for a separator string: the text before its first
    occurrence, or all of [s] when there is none. *)
Fixpoint before (sep : string) (s : string) : string :=
  if String.prefix sep s then EmptyString
  else match s with
       | EmptyString => EmptyString
       | String c rest => String c (before sep rest)
       end.

(** ** [int(str)] in base 10

    CPython's [PyLong_FromString]: leading white space, an optional sign,
    decimal digits in which single underscores may separate digits,
    trailing white space, and nothing else. Among the code points below
    256 the white space is tab, line feed, vertical tab, form feed,
    carriage return, space, U+0085 and U+00A0, and the only decimal
    digits are 0 to 9. A number of more than 4300 digits is refused
    ([sys.get_int_max_str_digits()], as the interpreter starts); leading
    zeros count as digits, underscores, the sign and the white space do
    not. *)

Definition is_space (c : ascii) : bool :=
  let n := N_of_ascii c in
  ((9 <=? n) && (n <=? 13) || (n =? 32) || (n =? 133) || (n =? 160))%N.

Definition is_digit (c : ascii) : bool :=
  let n := N_of_ascii c in ((48 <=? n) && (n <=? 57))%N.

Definition digit_value (c : ascii) : Z := Z.of_N (N_of_ascii c) - 48.

Fixpoint skip_spaces (s : string) : string :=
  match s with
  | String c rest => if is_space c then skip_spaces rest else s
  | EmptyString => EmptyString
  end.

(** The digit loop: [acc] is the value read so far and [prev_us] says
    that the previous character was an underscore. It stops at the first
    character that is neither a digit nor an underscore. *)
Fixpoint scan_digits (acc : Z) (prev_us : bool) (s : string) : option (Z * string) :=
  match s with
  | String c rest =>
      if is_digit c then scan_digits (10 * acc + digit_value c) false rest
      else if Ascii.eqb c "_"%char then
        (if prev_us then None else scan_digits acc true rest)
      else if prev_us then None else Some (acc, s)
  | EmptyString => if prev_us then None else Some (acc, EmptyString)
  end.

Definition scan_number (s : string) : option (Z * string) :=
  match s with
  | String c rest => if is_digit c then scan_digits (digit_value c) false rest else None
  | EmptyString => None
  end.

Definition int_max_str_digits : N := 4300.

(** The digits in the run of digits and underscores that [s] starts
    with. *)
Fixpoint count_digits (s : string) : N :=
  match s with
  | String c rest =>
      if is_digit c then N.succ (count_digits rest)
      else if Ascii.eqb c "_"%char then count_digits rest
      else 0%N
  | EmptyString => 0%N
  end.

Definition int_of_str (s : string) : option Z :=
  let s1 := skip_spaces s in
  let '(negative, s2) :=
    match s1 with
    | String "+"%char rest => (false, rest)
    | String "-"%char rest => (true, rest)
    | _ => (false, s1)
    end in
  match scan_number s2 with
  | Some (n, rest) =>
      if (int_max_str_digits <? count_digits s2)%N then None
      else match skip_spaces rest with
           | EmptyString => Some (if negative then - n else n)
           | String _ _ => None
           end
  | None => None
  end.

(** [int(s)]: the value, or [ValueError]. *)
Definition int (s : string) : result Z :=
  match int_of_str s with
  | Some n => Ok n
  | None => Raise ValueError
  end.

(** [a, b = map(int, pieces)]: the unpacking pulls the lazy [map] one
    item at a time, so [int] runs on the first piece, then on the second,
    and a third piece is converted too before the unpacking gives up
    with "too many values"; every way out is a [ValueError]. *)
Definition unpack_two_ints (pieces : list string) : result (Z * Z) :=
  match pieces with
  | [] => Raise ValueError
  | p1 :: rest1 =>
      match int p1 with
      | Raise e => Raise e
      | Ok a =>
          match rest1 with
          | [] => Raise ValueError
          | p2 :: rest2 =>
              match int p2 with
              | Raise e => Raise e
              | Ok b =>
                  match rest2 with
                  | [] => Ok (a, b)
                  | p3 :: _ =>
                      match int p3 with
                      | Raise e => Raise e
                      | Ok _ => Raise ValueError
                      end
                  end
              end
          end
      end
  end.

(** [range(a, b)] as the list it iterates over. *)
Definition range (a b : Z) : list Z := seqZ a (b - a).

(** ** Floats: [a / b], [x * 100] and [int(x)]

    A positive binary64 number is [mantissa * 2 ^ exponent] with
    [2^52 <= mantissa < 2^53]. Python rounds the quotient of two ints
    and the product of two floats correctly, to the nearest such number
    and on a tie to the one with the even mantissa. The quotients and
    products computed here lie between 2^-1000 and 100, far from the
    subnormal numbers and from overflow, so the exponent is left
    unbounded. *)

Record binary64 : Type := { mantissa : Z; exponent : Z }.

(** The integer nearest to [p / q], the even one on a tie. *)
Definition nearest_even (p q : Z) : Z :=
  let f := p `div` q in
  match 2 * (p `mod` q) ?= q with
  | Lt => f
  | Gt => f + 1
  | Eq => if Z.even f then f else f + 1
  end.

(** The fraction [p / (q * 2 ^ e)], as numerator and denominator. *)
Definition scaled (p q e : Z) : Z * Z :=
  if (0 <=? e)%Z then (p, q * 2 ^ e) else (p * 2 ^ (- e), q).

(** The binary64 number nearest to [p / q], for positive [p] and [q]:
    [e] is chosen so that [p / q / 2 ^ e] lies in [2^52, 2^53), that
    number is rounded to an integer, and a mantissa that rounds up to
    2^53 is renormalised. *)
Definition round_binary64 (p q : Z) : binary64 :=
  let e0 := Z.log2 p - Z.log2 q - 52 in
  let e := if (fst (scaled p q e0) <? 2 ^ 52 * snd (scaled p q e0))%Z then e0 - 1 else e0 in
  let m := nearest_even (fst (scaled p q e)) (snd (scaled p q e)) in
  if (m =? 2 ^ 53)%Z then {| mantissa := 2 ^ 52; exponent := e + 1 |}
  else {| mantissa := m; exponent := e |}.

(** [a / b] on two ints. *)
Definition truediv (a b : Z) : result binary64 :=
  if (b =? 0)%Z then Raise ZeroDivisionError else Ok (round_binary64 a b).

(** [x * c] for a float [x] and a small positive int [c], which converts
    to a float without rounding. *)
Definition float_mul (x : binary64) (c : Z) : binary64 :=
  let exact := scaled (c * mantissa x) 1 (- exponent x) in
  round_binary64 (fst exact) (snd exact).

(** [int(x)] on a float: truncation toward zero. *)
Definition int_of_float (x : binary64) : Z :=
  if (0 <=? exponent x)%Z then mantissa x * 2 ^ exponent x
  else mantissa x `div` 2 ^ (- exponent x).

(** [int(((i + 1) / total_files) * 100)] *)
Definition percent_of (i total_files : Z) : result Z :=
  match truediv (i + 1) total_files with
  | Ok q => Ok (int_of_float (float_mul q 100))
  | Raise e => Raise e
  end.

(** The same expression on the machine's binary64 numbers, to compare
    with: [None] stands for a result that is not finite. *)
Definition machine_int_of_float (x : float) : option Z :=
  match Prim2SF x with
  | S754_zero _ => Some 0
  | S754_finite negative m e =>
      let magnitude :=
        if (0 <=? e)%Z then Z.shiftl (Z.pos m) e else Z.shiftr (Z.pos m) (- e) in
      Some (if negative then - magnitude else magnitude)
  | S754_infinity _ | S754_nan => None
  end.

Definition machine_float (a : Z) : float := PrimFloat.of_uint63 (Uint63.of_Z a).

Definition machine_percent (i total_files : Z) : option Z :=
  machine_int_of_float
    (PrimFloat.mul (PrimFloat.div (machine_float (i + 1)) (machine_float total_files))
                   (machine_float 100)).

(** [f"Merging file {i + 1} of {total_files}"] *)
Definition status_of (i total_files : Z) : string :=
  "Merging file " +:+ pretty (i + 1) +:+ " of " +:+ pretty total_files.

(** ** The PDF library, the file system and the store of set objects *)

(** What [PdfReader(path)] gives for the bytes of a file: the constructor
    raises, or there is a document whose page sequence is walked one
    entry at a time; an entry [Raise e] is a page whose access raises
    when the walk reaches it. *)
Inductive pdf (page : Type) : Type :=
  | Unreadable (e : exn)
  | Document (pages : list (result page)).
Arguments Unreadable {page} e.
Arguments Document {page} pages.

Class PdfLibrary (page : Type) : Type := {
  parse_pdf : list byte → pdf page;
  write_pdf : list page → list byte;
}.

(** The files that exist, with their bytes, and the paths at which
    writing fails. How it fails there is told by [breaks_after]: with no
    entry for the path the system refuses to open the file for writing;
    with an entry [n] the file is opened and the write stops with an
    error once [n] bytes are in the file. *)
Record filesystem : Type := {
  contents : gmap string (list byte);
  unwritable : gset string;
  breaks_after : gmap string nat;
}.

Definition loc : Type := nat.

Record world : Type := {
  fs : filesystem;
  sets : gmap loc (gset Z);
}.

Definition set_at (w : world) (l : loc) : gset Z := default ∅ (sets w !! l).

Definition update_set (l : loc) (f : gset Z → gset Z) (w : world) : world :=
  {| fs := fs w; sets := <[l := f (set_at w l)]> (sets w) |}.

Definition store_file (path : string) (data : list byte) (w : world) : world :=
  {| fs := {| contents := <[path := data]> (contents (fs w));
              unwritable := unwritable (fs w);
              breaks_after := breaks_after (fs w) |};
     sets := sets w |}.

(** [PdfReader(path)] then [.pages]: the page sequence, or the exception
    of a file that is missing or that the library rejects. *)
Definition read_pages `{PdfLibrary page} (w : world) (path : string)
    : result (list (result page)) :=
  match contents (fs w) !! path with
  | None => Raise (FileNotFoundError path)
  | Some data =>
      match parse_pdf data with
      | Unreadable e => Raise e
      | Document pages => Ok pages
      end
  end.

(** The exception that writing at [path] ends with, if any. *)
Definition write_failure (disk : filesystem) (path : string) : option exn :=
  if bool_decide (path ∈ unwritable disk) then
    match breaks_after disk !! path with
    | None => Some (PermissionError path)
    | Some _ => Some (OSError path)
    end
  else None.

(** [open(path, "wb")]: refused with the file system as it was, or the
    file is created, and emptied when it was there. *)
Definition open_wb (path : string) (w : world) : world * result unit :=
  match write_failure (fs w) path with
  | Some (PermissionError p) => (w, Raise (PermissionError p))
  | _ => (store_file path [] w, Ok tt)
  end.

(** The bytes go into the open file in order, to the end or to the
    point where the write breaks off. *)
Definition write_bytes (path : string) (data : list byte) (w : world) : world * result unit :=
  match write_failure (fs w) path, breaks_after (fs w) !! path with
  | Some e, Some n => (store_file path (take n data) w, Raise e)
  | _, _ => (store_file path data w, Ok tt)
  end.

(** [with open(path, "wb") as f: writer.write(f)] *)
Definition write_pages `{PdfLibrary page} (path : string) (pages : list page) (w : world)
    : world * result unit :=
  match open_wb path w with
  | (w1, Ok _) => write_bytes path (write_pdf pages) w1
  | (w1, Raise e) => (w1, Raise e)
  end.

(** ** The signals of the worker *)

Inductive signal : Type :=
  | progress (percent : Z) (text : string)
  | finished
  | error (e : exn).

(** [enumerate(xs)], with the index as an [int]. *)
Fixpoint enumerate_from {A} (i : Z) (xs : list A) : list (Z * A) :=
  match xs with
  | [] => []
  | x :: rest => (i, x) :: enumerate_from (i + 1) rest
  end.

Definition enumerate {A} (xs : list A) : list (Z * A) := enumerate_from 0 xs.

(** ** [class MergeWorker(QThread)] *)

Module MergeWorker.

(** The attributes set by [__init__]. [files] is the list object passed
    in and [excluded_pages] is the set object passed in: the worker
    keeps the location of the caller's set. *)
Record t : Type := {
  files : list string;
  output : string;
  excluded_pages : loc;
}.

Definition init (files : list string) (output : string) (excluded_pages : loc) : t :=
  {| files := files; output := output; excluded_pages := excluded_pages |}.

Section Run.
Context {page : Type} `{!PdfLibrary page}.

(** What [run] works on: the world it shares with the interface
    thread, its locals [writer] and [current_page], and the signals
    it has emitted so far, oldest first. *)
Record state : Type := {
  env : world;
  writer : list page;
  current_page : Z;
  emitted : list signal;
}.

Definition boot (w : world) : state :=
  {| env := w; writer := []; current_page := 1; emitted := [] |}.

Definition emit (sig : signal) : py state unit :=
  py_modify (λ s, {| env := env s; writer := writer s;
                     current_page := current_page s;
                     emitted := emitted s ++ [sig] |}).

(** [writer = PdfWriter()] and [current_page = 1] *)
Definition fresh_locals : py state unit :=
  py_modify (λ s, {| env := env s; writer := [];
                     current_page := 1; emitted := emitted s |}).

(** [writer.add_page(page)] *)
Definition add_page (p : page) : py state unit :=
  py_modify (λ s, {| env := env s; writer := writer s ++ [p];
                     current_page := current_page s;
                     emitted := emitted s |}).

(** [current_page += 1] *)
Definition next_page : py state unit :=
  py_modify (λ s, {| env := env s; writer := writer s;
                     current_page := current_page s + 1;
                     emitted := emitted s |}).

(** One turn of [for page in reader.pages]: the page is fetched, the
    set object is consulted as it is at that moment, and the counter
    moves on whether or not the page was added. *)
Definition copy_page (self : t) (entry : result page) : py state unit :=
  (p <- py_lift entry ;;
   s <- py_get ;;
   (if bool_decide (current_page s ∈ set_at (env s) (excluded_pages self))
    then py_ret tt
    else add_page p) ;;;
   next_page)%py.

(** [reader = PdfReader(pdf)] *)
Definition open_reader (pdf : string) : py state (list (result page)) :=
  (s <- py_get ;; py_lift (read_pages (env s) pdf))%py.

(** The two lines after the inner loop. *)
Definition report (i total_files : Z) : py state unit :=
  (percent <- py_lift (percent_of i total_files) ;;
   emit (progress percent (status_of i total_files)))%py.

(** One turn of [for i, pdf in enumerate(self.files)]. *)
Definition merge_file (self : t) (total_files : Z) (item : Z * string)
    : py state unit :=
  (pages <- open_reader (snd item) ;;
   for_each pages (copy_page self) ;;;
   report (fst item) total_files)%py.

(** [with open(self.output, "wb") as f: writer.write(f)] *)
Definition save (self : t) : py state unit :=
  λ s, let '(w, r) := write_pages (output self) (writer s) (env s) in
       ({| env := w; writer := writer s; current_page := current_page s;
           emitted := emitted s |}, r).

Definition total_files (self : t) : Z := Z.of_nat (length (files self)).

Definition run (self : t) : py state unit :=
  try_except
    (fresh_locals ;;;
     for_each (enumerate (files self)) (merge_file self (total_files self)) ;;;
     save self ;;;
     emit finished)%py
    (λ e, emit (error e)).

(** *** The same thread, one step at a time

    Between two steps the interface thread may run a handler. A step
    is: taking the next file and opening it (or, after the last one,
    saving and emitting [finished]); one turn of the page loop; the
    report that follows the page loop. An exception in a step runs
    the [except] clause and stops the thread. *)
Inductive pc : Type :=
  | NextFile (i : Z) (rest : list string)
  | InPages (i : Z) (rest : list string) (pages : list (result page))
  | Stopped.

Definition guarded (m : py state unit) (next : pc) (s : state) : state * pc :=
  match m s with
  | (s', Ok _) => (s', next)
  | (s', Raise e) => (fst (emit (error e) s'), Stopped)
  end.

Definition step (self : t) (c : state * pc) : state * pc :=
  let '(s, at_) := c in
  match at_ with
  | NextFile i [] => guarded (save self ;;; emit finished)%py Stopped s
  | NextFile i (pdf :: rest) =>
      match open_reader pdf s with
      | (s', Ok pages) => (s', InPages i rest pages)
      | (s', Raise e) => (fst (emit (error e) s'), Stopped)
      end
  | InPages i rest (entry :: pages) =>
      guarded (copy_page self entry) (InPages i rest pages) s
  | InPages i rest [] =>
      guarded (report i (total_files self)) (NextFile (i + 1) rest) s
  | Stopped => (s, Stopped)
  end.

Definition start (self : t) (w : world) : state * pc :=
  (fst (fresh_locals (boot w)), NextFile 0 (files self)).

End Run.
Arguments state page : clear implicits.
Arguments pc page : clear implicits.

End MergeWorker.

(** ** [class PdfMergerApp(QWidget)] *)

Module PdfMergerApp.

(** The attributes the handlers below read or write. [list_widget]
    holds the item texts from top to bottom; [excluded_pages] is the
    location of the set object made in [__init__] and never rebound;
    [message_boxes] records the dialogs shown, oldest first. *)
Record t : Type := {
  list_widget : list string;
  excluded_pages : loc;
  page_input : string;
  page_count_label : string;
  preview_btn_enabled : bool;
  merge_btn_enabled : bool;
  message_boxes : list (string * string);
  worker : option MergeWorker.t;
}.

(** A handler runs on the world and on the attributes of the window. *)
Record gui : Type := { env : world; self : t }.

Definition on_self (f : t → t) : py gui unit :=
  py_modify (λ g, {| env := env g; self := f (self g) |}).

Definition on_env (f : world → world) : py gui unit :=
  py_modify (λ g, {| env := f (env g); self := self g |}).

Definition set_list_widget (items : list string) (a : t) : t :=
  {| list_widget := items; excluded_pages := excluded_pages a;
     page_input := page_input a; page_count_label := page_count_label a;
     preview_btn_enabled := preview_btn_enabled a;
     merge_btn_enabled := merge_btn_enabled a;
     message_boxes := message_boxes a; worker := worker a |}.

Definition set_page_input (text : string) (a : t) : t :=
  {| list_widget := list_widget a; excluded_pages := excluded_pages a;
     page_input := text; page_count_label := page_count_label a;
     preview_btn_enabled := preview_btn_enabled a;
     merge_btn_enabled := merge_btn_enabled a;
     message_boxes := message_boxes a; worker := worker a |}.

Definition set_page_count_label (text : string) (a : t) : t :=
  {| list_widget := list_widget a; excluded_pages := excluded_pages a;
     page_input := page_input a; page_count_label := text;
     preview_btn_enabled := preview_btn_enabled a;
     merge_btn_enabled := merge_btn_enabled a;
     message_boxes := message_boxes a; worker := worker a |}.

Definition set_buttons (enabled : bool) (a : t) : t :=
  {| list_widget := list_widget a; excluded_pages := excluded_pages a;
     page_input := page_input a; page_count_label := page_count_label a;
     preview_btn_enabled := enabled; merge_btn_enabled := enabled;
     message_boxes := message_boxes a; worker := worker a |}.

Definition show_message (title text : string) (a : t) : t :=
  {| list_widget := list_widget a; excluded_pages := excluded_pages a;
     page_input := page_input a; page_count_label := page_count_label a;
     preview_btn_enabled := preview_btn_enabled a;
     merge_btn_enabled := merge_btn_enabled a;
     message_boxes := message_boxes a ++ [(title, text)]; worker := worker a |}.

Definition set_worker (job : MergeWorker.t) (a : t) : t :=
  {| list_widget := list_widget a; excluded_pages := excluded_pages a;
     page_input := page_input a; page_count_label := page_count_label a;
     preview_btn_enabled := preview_btn_enabled a;
     merge_btn_enabled := merge_btn_enabled a;
     message_boxes := message_boxes a; worker := Some job |}.

(** The window of [__init__]: no items, a fresh empty set, both
    buttons disabled by [update_buttons]. *)
Definition init (l : loc) : t :=
  {| list_widget := []; excluded_pages := l; page_input := "";
     page_count_label := "Total pages: 0";
     preview_btn_enabled := false; merge_btn_enabled := false;
     message_boxes := []; worker := None |}.

(** [f"{path}   [{pages} pages]"] *)
Definition item_text (path : string) (pages : Z) : string :=
  path +:+ "   [" +:+ pretty pages +:+ " pages]".

Definition get_files (a : t) : list string := before "   [" <$> list_widget a.

Section Handlers.
Context {page : Type} `{!PdfLibrary page}.

(** [len(PdfReader(path).pages)] *)
Definition count_pages (w : world) (path : string) : result Z :=
  match read_pages w path with
  | Ok pages => Ok (Z.of_nat (length pages))
  | Raise e => Raise e
  end.

(** The loop of [update_page_count], from a running [total]. *)
Fixpoint sum_pages (w : world) (total : Z) (paths : list string) : result Z :=
  match paths with
  | [] => Ok total
  | f :: rest =>
      match count_pages w f with
      | Ok n => sum_pages w (total + n) rest
      | Raise e => Raise e
      end
  end.

Definition update_page_count : py gui unit :=
  (g <- py_get ;;
   total <- py_lift (sum_pages (env g) 0 (get_files (self g))) ;;
   let total := total - Z.of_nat (size (set_at (env g) (excluded_pages (self g)))) in
   on_self (set_page_count_label ("Total pages: " +:+ pretty (Z.max total 0))))%py.

Definition update_buttons : py gui unit :=
  (g <- py_get ;;
   on_self (set_buttons (bool_decide (2 ≤ length (list_widget (self g)))%nat)))%py.

Definition add_pdf (path : string) : py gui unit :=
  (g <- py_get ;;
   pages <- py_lift (count_pages (env g) path) ;;
   on_self (set_list_widget (list_widget (self g) ++ [item_text path pages])) ;;;
   update_page_count ;;;
   update_buttons)%py.

(** The body of [for part in text.split(",")]. *)
Definition exclude_part (part : string) : py gui unit :=
  (g <- py_get ;;
   let l := excluded_pages (self g) in
   if contains "-"%char part then
     (ab <- py_lift (unpack_two_ints (split "-"%char part)) ;;
      on_env (update_set l (λ s, s ∪ list_to_set (range (fst ab) (snd ab + 1)))))
   else
     (n <- py_lift (int part) ;;
      on_env (update_set l (λ s, s ∪ {[n]}))))%py.

Definition apply_page_removal : py gui unit :=
  (g <- py_get ;;
   on_env (update_set (excluded_pages (self g)) (λ _, ∅)) ;;;
   let text := remove_spaces (page_input (self g)) in
   if bool_decide (text = "") then update_page_count
   else
     try_except
       (for_each (split ","%char text) exclude_part ;;;
        update_page_count)
       (λ _, on_self (show_message "Error" "Invalid page range format")))%py.

(** [selected] are the rows of the selected items. *)
Definition remove_selected (selected : list nat) : py gui unit :=
  (g <- py_get ;;
   on_self (set_list_widget
              (snd <$> filter (λ ix, fst ix ∉ selected)
                              (imap (λ i x, (i, x)) (list_widget (self g))))) ;;;
   update_page_count ;;;
   update_buttons)%py.

(** [output] is what the save dialog returned, empty when cancelled.
    The worker gets the list built by [get_files], the path, and the
    application's own set object. *)
Definition merge_pdfs (output : string) : py gui unit :=
  (g <- py_get ;;
   if bool_decide (output = "") then py_ret tt
   else on_self (set_worker
          (MergeWorker.init (get_files (self g)) output
                            (excluded_pages (self g)))))%py.

End Handlers.

End PdfMergerApp.

(** ** The threads together

    The interface thread runs one handler at a time; every click on the
    enabled Merge button that comes back with a path makes a new worker
    and starts it as one more thread, whether or not earlier workers are
    still running; a started worker advances by the steps of
    [MergeWorker.step]; a schedule says in which order the threads take
    turns, [Tick k] being a step of the worker started as number [k].
    A handler whose exception nobody catches ends the process (PyQt5
    aborts on an unhandled exception in a slot). *)

Module Session.

Inductive action : Type :=
  | Tick (k : nat)
  | TypePages (text : string)
  | ClickApply
  | AddPdf (path : string)
  | RemoveSelected (rows : list nat)
  | ClickMerge (output : string).

Section Threads.
Context {page : Type} `{!PdfLibrary page}.

(** [threads] holds the workers started so far, oldest first, each with
    the point its thread has reached. *)
Record t : Type := {
  shared : world;
  window : PdfMergerApp.t;
  threads : list (MergeWorker.t * (MergeWorker.state page * MergeWorker.pc page));
  aborted : bool;
}.

Definition with_env (w : world) (s : MergeWorker.state page) : MergeWorker.state page :=
  {| MergeWorker.env := w; MergeWorker.writer := MergeWorker.writer s;
     MergeWorker.current_page := MergeWorker.current_page s;
     MergeWorker.emitted := MergeWorker.emitted s |}.

(** Running a handler of the window to its end. *)
Definition handle (m : py PdfMergerApp.gui unit) (x : t) : t :=
  match m {| PdfMergerApp.env := shared x; PdfMergerApp.self := window x |} with
  | (g, Ok _) =>
      {| shared := PdfMergerApp.env g; window := PdfMergerApp.self g;
         threads := threads x; aborted := false |}
  | (g, Raise _) =>
      {| shared := PdfMergerApp.env g; window := PdfMergerApp.self g;
         threads := threads x; aborted := true |}
  end.

(** [self.worker.start()] on the worker that [merge_pdfs] has just
    stored. *)
Definition start_worker (x : t) : t :=
  match PdfMergerApp.worker (window x) with
  | Some job =>
      {| shared := shared x; window := window x;
         threads := threads x ++ [(job, MergeWorker.start job (shared x))];
         aborted := aborted x |}
  | None => x
  end.

(** One step of the worker started as number [k], on the world as it
    is now. *)
Definition tick (k : nat) (x : t) : t :=
  match threads x !! k with
  | Some (job, (s, at_)) =>
      let '(s', at') := MergeWorker.step job (with_env (shared x) s, at_) in
      {| shared := MergeWorker.env s'; window := window x;
         threads := <[k := (job, (s', at'))]> (threads x); aborted := aborted x |}
  | None => x
  end.

(** [ClickMerge output]: the click on the Merge button, which needs the
    button enabled, with [output] what the save dialog then returns;
    [merge_pdfs] returns before [self.worker.start()] when it is
    empty. *)
Definition act (x : t) (a : action) : t :=
  if aborted x then x
  else match a with
       | Tick k => tick k x
       | TypePages text => handle (PdfMergerApp.on_self (PdfMergerApp.set_page_input text)) x
       | ClickApply => handle PdfMergerApp.apply_page_removal x
       | AddPdf path => handle (PdfMergerApp.add_pdf path) x
       | RemoveSelected rows => handle (PdfMergerApp.remove_selected rows) x
       | ClickMerge output =>
           if PdfMergerApp.merge_btn_enabled (window x) then
             if bool_decide (output = "") then handle (PdfMergerApp.merge_pdfs output) x
             else start_worker (handle (PdfMergerApp.merge_pdfs output) x)
           else x
       end.

Definition exec (schedule : list action) (x : t) : t := foldl act x schedule.

(** The session when the window has just been built: the set object
    of [__init__] is allocated at a fresh location, empty. *)
Definition open_window (disk : filesystem) : t :=
  {| shared := {| fs := disk; sets := {[ 0%nat := ∅ ]} |};
     window := PdfMergerApp.init 0%nat;
     threads := []; aborted := false |}.

End Threads.
Arguments t page : clear implicits.

End Session.

(** ** A small PDF library to run the model on

    A page is one byte and a file is the sequence of its pages. A file
    that starts with the byte 00 is rejected by the reader, and a page
    that is the byte ff raises when it is fetched. *)

Definition toy_page (b : byte) : result byte :=
  if Byte.eqb b xff then Raise (PdfReadError "broken page object") else Ok b.

Definition toy_parse (data : list byte) : pdf byte :=
  match data with
  | x00 :: _ => Unreadable (PdfReadError "EOF marker not found")
  | _ => Document (toy_page <$> data)
  end.

#[export] Instance toy_pdf : PdfLibrary byte :=
  {| parse_pdf := toy_parse; write_pdf := λ pages, pages |}.

Definition disk_of (entries : list (string * list byte)) : filesystem :=
  {| contents := list_to_map entries; unwritable := ∅; breaks_after := ∅ |}.

Definition world_of (entries : list (string * list byte)) (excluded : list Z) : world :=
  {| fs := disk_of entries; sets := {[ 0%nat := list_to_set excluded ]} |}.

(** ** The specification's vocabulary *)

(** A token of a page expression as the specification reads it: a bare
    integer, or two integers separated by one hyphen. *)
Inductive token : Type :=
  | Bare (n : Z)
  | Range (a b : Z).

Definition read_token (part : string) : option token :=
  if contains "-"%char part then
    match split "-"%char part with
    | [x; y] =>
        match int_of_str x, int_of_str y with
        | Some a, Some b => Some (Range a b)
        | _, _ => None
        end
    | _ => None
    end
  else
    match int_of_str part with
    | Some n => Some (Bare n)
    | None => None
    end.

(** The pages a token stands for: the integer itself, or every integer
    of the closed interval, which is empty when the bounds are reversed. *)
Definition token_has (t : token) (z : Z) : bool :=
  match t with
  | Bare n => (z =? n)%Z
  | Range a b => (a <=? z)%Z && (z <=? b)%Z
  end.

(** [pages] is the union of what the tokens [parts] stand for. *)
Definition union_of_tokens (parts : list string) (pages : gset Z) : Prop :=
  ∀ z, z ∈ pages ↔ ∃ part t, part ∈ parts ∧ read_token part = Some t ∧ token_has t z = true.

(** The tokens in front of the first one that cannot be read. *)
Fixpoint readable_prefix (parts : list string) : list string :=
  match parts with
  | [] => []
  | part :: rest =>
      match read_token part with
      | Some _ => part :: readable_prefix rest
      | None => []
      end
  end.

(** White space as [str.isspace] has it on code points below 256. *)
Definition is_whitespace (c : ascii) : bool :=
  let n := N_of_ascii c in
  ((9 <=? n) && (n <=? 13) || (28 <=? n) && (n <=? 32) || (n =? 133) || (n =? 160))%N.

Fixpoint whitespace_only (s : string) : bool :=
  match s with
  | EmptyString => true
  | String c rest => is_whitespace c && whitespace_only rest
  end.

Fixpoint spaces_only (s : string) : bool :=
  match s with
  | EmptyString => true
  | String c rest => Ascii.eqb c " "%char && spaces_only rest
  end.

(** The pages of the concatenated sources with their absolute positions,
    counted from 1. *)
Definition absolute_positions {A} (docs : list (list A)) : list (Z * A) :=
  imap (λ i p, (Z.of_nat i + 1, p)) (concat docs).

(** The pages whose absolute position is not excluded, in order. *)
Definition surviving {A} (excluded : gset Z) (docs : list (list A)) : list A :=
  snd <$> filter (λ ip, fst ip ∉ excluded) (absolute_positions docs).

(** [100 * k / n] rounded to the nearest integer. *)
Definition rounded_percent (k n : Z) : Z := (200 * k + n) `div` (2 * n).

(** [100 * k / n] rounded down. *)
Definition floored_percent (k n : Z) : Z := (100 * k) `div` n.

(** What is checked of the percentage reported for file [k] of [n]: it
    is [100 * k / n] rounded down, or one less than that when [100 * k / n]
    is a whole number, and it is what the machine's floats give. *)
Definition percent_as_expected (k n : Z) : bool :=
  let p := int_of_float (float_mul (round_binary64 k n) 100) in
  let f := floored_percent k n in
  ((p =? f)%Z || ((p =? f - 1)%Z && ((100 * k) `mod` n =? 0)%Z))
  && bool_decide (machine_percent (k - 1) n = Some p).

(** The progress signals among the signals of a run. *)
Definition progress_events (sigs : list signal) : list (Z * string) :=
  omap (λ sig, match sig with progress p text => Some (p, text) | _ => None end) sigs.

Definition is_final (sig : signal) : bool :=
  match sig with
  | progress _ _ => false
  | finished | error _ => true
  end.

(** Every source can be opened and every one of its pages fetched:
    [docs] are the page lists, file by file. *)
Definition all_readable `{PdfLibrary page} (w : world) (paths : list string) (docs : list (list page)) : Prop :=
  Forall2 (λ path doc, read_pages w path = Ok (Ok <$> doc)) paths docs.

(** The set of pages a token stands for, and the union over the tokens
    that can be read. *)
Definition token_pages (t : token) : gset Z :=
  match t with
  | Bare n => {[ n ]}
  | Range a b => list_to_set (seqZ a (b - a + 1))
  end.

Definition pages_of (parts : list string) : gset Z :=
  ⋃ (omap (λ part, token_pages <$> read_token part) parts).

(** The exclusion set as the window sees it, and the dialog that
    [apply_page_removal] shows for an expression it rejects. *)
Definition excluded_of (g : PdfMergerApp.gui) : gset Z :=
  set_at (PdfMergerApp.env g) (PdfMergerApp.excluded_pages (PdfMergerApp.self g)).

Definition invalid_format : string * string := ("Error", "Invalid page range format").

(** The window state with the exclusion set replaced by [pages]. *)
Definition with_excluded (pages : gset Z) (g : PdfMergerApp.gui) : PdfMergerApp.gui :=
  {| PdfMergerApp.env :=
       update_set (PdfMergerApp.excluded_pages (PdfMergerApp.self g)) (λ _, pages)
                  (PdfMergerApp.env g);
     PdfMergerApp.self := PdfMergerApp.self g |}.

(** The number written with [n] digits 1. *)
Definition ones (n : nat) : string := string_of_list_ascii (replicate n "1"%char).

(** A window on a disk with one two-page file, with [text] typed in the
    page field and [excluded] in the exclusion set. *)
Definition sample_gui (text : string) (excluded : list Z) : PdfMergerApp.gui :=
  {| PdfMergerApp.env := world_of [("a.pdf", [x01; x02])] excluded;
     PdfMergerApp.self :=
       PdfMergerApp.set_list_widget [PdfMergerApp.item_text "a.pdf" 2]
         (PdfMergerApp.set_page_input text (PdfMergerApp.init 0%nat)) |}.

(** ** What a run reads and reports, in closed form *)

(** The pages fetched in order until one raises, and the exception of
    the first one that does. *)
Fixpoint fetched {A} (pages : list (result A)) : list A :=
  match pages with
  | Ok p :: rest => p :: fetched rest
  | _ => []
  end.

Fixpoint first_failure {A} (pages : list (result A)) : option exn :=
  match pages with
  | [] => None
  | Ok _ :: rest => first_failure rest
  | Raise e :: _ => Some e
  end.

(** The pages a source yields before it fails, if it fails, and the
    exception with which it fails. *)
Definition source_pages `{PdfLibrary page} (w : world) (path : string) : list page :=
  match read_pages w path with
  | Ok pages => fetched pages
  | Raise _ => []
  end.

Definition read_failure `{PdfLibrary page} (w : world) (path : string) : option exn :=
  match read_pages w path with
  | Ok pages => first_failure pages
  | Raise e => Some e
  end.

(** The sources in front of the first one that fails, the exception of
    that one, and all the pages fetched up to the failure. *)
Fixpoint readable_sources `{PdfLibrary page} (w : world) (paths : list string) : list string :=
  match paths with
  | [] => []
  | path :: rest =>
      match read_failure w path with
      | None => path :: readable_sources w rest
      | Some _ => []
      end
  end.

Fixpoint first_read_error `{PdfLibrary page} (w : world) (paths : list string) : option exn :=
  match paths with
  | [] => None
  | path :: rest =>
      match read_failure w path with
      | None => first_read_error w rest
      | Some e => Some e
      end
  end.

Fixpoint pages_fetched `{PdfLibrary page} (w : world) (paths : list string) : list page :=
  match paths with
  | [] => []
  | path :: rest =>
      match read_failure w path with
      | None => source_pages w path ++ pages_fetched w rest
      | Some _ => source_pages w path
      end
  end.

(** Of pages at the positions [c], [c + 1], ..., those not excluded. *)
Definition kept_from {A} (excluded : gset Z) (c : Z) (pages : list A) : list A :=
  snd <$> filter (λ ip, fst ip ∉ excluded) (imap (λ i p, (Z.of_nat i + c, p)) pages).

(** The value of [int(((i + 1) / total_files) * 100)] when there is at
    least one file. *)
Definition percent_value (i total_files : Z) : Z :=
  int_of_float (float_mul (round_binary64 (i + 1) total_files) 100).

Arguments round_binary64 : simpl never.
Arguments percent_value : simpl never.
Arguments status_of : simpl never.
Arguments kept_from : simpl never.

(** The progress signals for the files [i + 1], ..., [i + m] of [n]. *)
Definition reports_from (i n : Z) (m : nat) : list signal :=
  (λ j, progress (percent_value j n) (status_of j n)) <$> seqZ i (Z.of_nat m).

Arguments reports_from : simpl never.

(** The world after an attempt to write [data] at [path]: untouched
    when the file cannot be opened, with the bytes written before the
    break when the write breaks off, with all of [data] otherwise. *)
Definition written (path : string) (data : list byte) (w : world) : world :=
  if bool_decide (path ∈ unwritable (fs w)) then
    match breaks_after (fs w) !! path with
    | None => w
    | Some n => store_file path (take n data) w
    end
  else store_file path data w.

(** The signal that ends a run. *)
Definition last_signal `{PdfLibrary page} (w : world) (job : MergeWorker.t) : signal :=
  match first_read_error w (MergeWorker.files job) with
  | Some e => error e
  | None =>
      match write_failure (fs w) (MergeWorker.output job) with
      | Some e => error e
      | None => finished
      end
  end.

(** The state in which [run] ends when started in the world [w]. *)
Definition run_outcome `{PdfLibrary page} (w : world) (job : MergeWorker.t)
    : MergeWorker.state page :=
  let excluded := set_at w (MergeWorker.excluded_pages job) in
  let pages := kept_from excluded 1 (pages_fetched w (MergeWorker.files job)) in
  {| MergeWorker.env :=
       match first_read_error w (MergeWorker.files job) with
       | Some _ => w
       | None => written (MergeWorker.output job) (write_pdf pages) w
       end;
     MergeWorker.writer := pages;
     MergeWorker.current_page :=
       1 + Z.of_nat (length (pages_fetched w (MergeWorker.files job)));
     MergeWorker.emitted :=
       reports_from 0 (MergeWorker.total_files job)
                    (length (readable_sources w (MergeWorker.files job)))
       ++ [last_signal w job] |}.

(** The world after [k] runs of [job], one after the other, from [w]. *)
Definition rerun `{PdfLibrary page} (job : MergeWorker.t) (k : nat) (w : world) : world :=
  Nat.iter k (λ v, MergeWorker.env (fst (MergeWorker.run job (MergeWorker.boot v)))) w.

(** The world [w] with writes at [path] breaking off after [n] bytes. *)
Definition with_broken_write (path : string) (n : nat) (w : world) : world :=
  {| fs := {| contents := contents (fs w);
              unwritable := {[ path ]} ∪ unwritable (fs w);
              breaks_after := <[path := n]> (breaks_after (fs w)) |};
     sets := sets w |}.

(** Three sources of 2, 3 and 1 pages, a job that merges them, and a job
    whose second source does not exist. *)
Definition sample_world (excluded : list Z) : world :=
  world_of [("a.pdf", [x01; x02]); ("b.pdf", [x03; x04; x05]); ("c.pdf", [x06])] excluded.

Definition sample_job : MergeWorker.t :=
  MergeWorker.init ["a.pdf"; "b.pdf"; "c.pdf"] "out.pdf" 0%nat.

Definition broken_job : MergeWorker.t :=
  MergeWorker.init ["a.pdf"; "missing.pdf"; "c.pdf"] "out.pdf" 0%nat.

(** ** The rest of a run, from a point of the thread *)












(** Whether a schedule leaves the Apply button alone. *)
Definition no_apply (schedule : list Session.action) : bool :=
  forallb (λ a, match a with Session.ClickApply => false | _ => true end) schedule.

(** A session on a disk with a two-page and a one-page file: both are
    added, page 1 is excluded, and the merge is started. *)
Definition sample_disk : filesystem :=
  disk_of [("a.pdf", [x01; x02]); ("b.pdf", [x03])].

Definition launched_session : Session.t byte :=
  Session.exec
    [Session.AddPdf "a.pdf"; Session.AddPdf "b.pdf"; Session.TypePages "1";
     Session.ClickApply; Session.ClickMerge "out.pdf"]
    (Session.open_window sample_disk).

(** ** The rest of the window: drops, previews, the slots, closing

    The attributes these handlers use beside those of [PdfMergerApp.t]
    are kept in a record around it: the preview files written so far,
    the progress bar and its label, the check box, the dialogs shown and
    the locations handed to the desktop. The dialogs of [merge_error] and
    of a failed preview show [str(e)]; the model keeps [e]. The folder
    that [merge_done] opens is [os.path.dirname(output)], kept as the
    path it is taken of. *)

(** [s.lower()] on code points below 256: the letters A to Z, and the
    accented capitals U+00C0 to U+00DE without the sign U+00D7. *)
Definition lower_char (c : ascii) : ascii :=
  let n := N_of_ascii c in
  if ((65 <=? n) && (n <=? 90) || (192 <=? n) && (n <=? 222) && negb (n =? 215))%N
  then ascii_of_N (n + 32) else c.

Fixpoint lower (s : string) : string :=
  match s with
  | EmptyString => EmptyString
  | String c rest => String (lower_char c) (lower rest)
  end.

(** [s.endswith(suffix)] *)
Fixpoint endswith (s suffix : string) : bool :=
  String.eqb s suffix
  || match s with
     | EmptyString => false
     | String _ rest => endswith rest suffix
     end.

Module Shell.

Inductive dialog : Type :=
  | Information (title text : string)
  | Critical (title : string) (e : exn).

Inductive location : Type :=
  | File (path : string)
  | FolderOf (path : string).

Record t : Type := {
  gui : PdfMergerApp.gui;
  temp_preview_files : list string;
  progress_bar : Z;
  progress_text : string;
  open_folder_cb : bool;
  dialogs : list dialog;
  opened : list location;
}.

Definition with_gui (g : PdfMergerApp.gui) (x : t) : t :=
  {| gui := g; temp_preview_files := temp_preview_files x; progress_bar := progress_bar x;
     progress_text := progress_text x; open_folder_cb := open_folder_cb x;
     dialogs := dialogs x; opened := opened x |}.

Definition set_progress (value : Z) (text : string) (x : t) : t :=
  {| gui := gui x; temp_preview_files := temp_preview_files x; progress_bar := value;
     progress_text := text; open_folder_cb := open_folder_cb x;
     dialogs := dialogs x; opened := opened x |}.

Definition show (d : dialog) (x : t) : t :=
  {| gui := gui x; temp_preview_files := temp_preview_files x; progress_bar := progress_bar x;
     progress_text := progress_text x; open_folder_cb := open_folder_cb x;
     dialogs := dialogs x ++ [d]; opened := opened x |}.

Definition open_url (l : location) (x : t) : t :=
  {| gui := gui x; temp_preview_files := temp_preview_files x; progress_bar := progress_bar x;
     progress_text := progress_text x; open_folder_cb := open_folder_cb x;
     dialogs := dialogs x; opened := opened x ++ [l] |}.

Definition record_preview (path : string) (x : t) : t :=
  {| gui := gui x; temp_preview_files := temp_preview_files x ++ [path];
     progress_bar := progress_bar x; progress_text := progress_text x;
     open_folder_cb := open_folder_cb x; dialogs := dialogs x; opened := opened x |}.

Definition on_world (f : world → world) (x : t) : t :=
  with_gui {| PdfMergerApp.env := f (PdfMergerApp.env (gui x));
              PdfMergerApp.self := PdfMergerApp.self (gui x) |} x.

(** The window around a given core, as [__init__] leaves the rest: a
    [QProgressBar] whose value was never set reports -1. *)
Definition around (g : PdfMergerApp.gui) : t :=
  {| gui := g; temp_preview_files := []; progress_bar := -1; progress_text := "";
     open_folder_cb := false; dialogs := []; opened := [] |}.

Section Handlers.
Context {page : Type} `{!PdfLibrary page}.

(** [dropEvent]: [paths] are the local files of the dropped URLs. *)
Definition dropEvent (paths : list string) : py PdfMergerApp.gui unit :=
  for_each paths (λ path,
    if endswith (lower path) ".pdf" then PdfMergerApp.add_pdf path else py_ret tt).

(** The locals of the loop of [preview_merged]. *)
Record locals : Type := { writer : list page; current_page : Z }.

(** One turn of [for page in reader.pages] in [preview_merged]. *)
Definition preview_page (excluded : gset Z) (entry : result page) : py locals unit :=
  (p <- py_lift entry ;;
   s <- py_get ;;
   (if bool_decide (current_page s ∈ excluded) then py_ret tt
    else py_modify (λ s, {| writer := writer s ++ [p]; current_page := current_page s |})) ;;;
   py_modify (λ s, {| writer := writer s; current_page := current_page s + 1 |}))%py.

(** One turn of [for pdf in self.get_files()] in [preview_merged]. *)
Definition preview_file (w : world) (excluded : gset Z) (pdf : string) : py locals unit :=
  (pages <- py_lift (read_pages w pdf) ;;
   for_each pages (preview_page excluded))%py.

(** [preview_merged]: [temp] is the name that [NamedTemporaryFile]
    picks. Nothing runs on the window between two turns of the loops, so
    the world and the set are those found on entry. Creating the
    temporary file and then writing it by name comes to opening it for
    writing and writing it; what a write that fails has left in the file
    stays there. *)
Definition preview_merged (temp : string) : py t unit :=
  (x <- py_get ;;
   let g := gui x in
   if bool_decide (length (PdfMergerApp.list_widget (PdfMergerApp.self g)) < 2)%nat
   then py_ret tt
   else
     try_except
       (λ x0,
          let w := PdfMergerApp.env g in
          let excluded := set_at w (PdfMergerApp.excluded_pages (PdfMergerApp.self g)) in
          match for_each (PdfMergerApp.get_files (PdfMergerApp.self g))
                         (preview_file w excluded)
                         {| writer := []; current_page := 1 |} with
          | (_, Raise e) => (x0, Raise e)
          | (s, Ok _) =>
              match write_pages temp (writer s) w with
              | (w', Raise e) => (on_world (λ _, w') x0, Raise e)
              | (w', Ok _) =>
                  (open_url (File temp) (record_preview temp (on_world (λ _, w') x0)), Ok tt)
              end
          end)
       (λ e, py_modify (show (Critical "Preview Error" e))))%py.

(** The slots of the three signals. *)
Definition on_progress (value : Z) (text : string) : py t unit :=
  py_modify (set_progress value text).

Definition merge_done (output : string) : py t unit :=
  (py_modify (set_progress 0 "") ;;;
   py_modify (show (Information "Success" "PDFs merged successfully!")) ;;;
   x <- py_get ;;
   if open_folder_cb x then py_modify (open_url (FolderOf output)) else py_ret tt)%py.

Definition merge_error (e : exn) : py t unit :=
  py_modify (show (Critical "Error" e)).

(** The connections made in [merge_pdfs], for the worker of [output]. *)
Definition deliver (output : string) (sig : signal) : py t unit :=
  match sig with
  | progress value text => on_progress value text
  | finished => merge_done output
  | error e => merge_error e
  end.

(** [os.remove(path)] *)
Definition remove_file (path : string) (w : world) : world :=
  {| fs := {| contents := delete path (contents (fs w));
              unwritable := unwritable (fs w);
              breaks_after := breaks_after (fs w) |};
     sets := sets w |}.

(** The body of the loop of [closeEvent]: a removal that raises is passed
    over. [removable] tells for which paths the system lets [os.remove]
    through. *)
Definition remove_quietly (removable : string → bool) (f : string) : py t unit :=
  try_except
    (x <- py_get ;;
     if bool_decide (contents (fs (PdfMergerApp.env (gui x))) !! f = None)
     then py_raise (FileNotFoundError f)
     else if removable f then py_modify (on_world (remove_file f))
     else py_raise (PermissionError f))%py
    (λ _, py_ret tt).

Definition closeEvent (removable : string → bool) : py t unit :=
  (x <- py_get ;;
   for_each (temp_preview_files x) (remove_quietly removable))%py.

End Handlers.
Arguments locals page : clear implicits.

End Shell.

(** ** Vocabulary for the properties of the handlers *)

(** [sep in s] for a separator string. *)
Fixpoint occurs (sep s : string) : bool :=
  String.prefix sep s
  || match s with
     | EmptyString => false
     | String _ rest => occurs sep rest
     end.

(** The separator that [get_files] cuts the item texts at. *)
Definition item_sep : string := "   [".

(** How many of the positions [c], ..., [c + len - 1] are excluded. *)
Definition excluded_within (excluded : gset Z) (c : Z) (len : nat) : nat :=
  length (filter (λ z, z ∈ excluded) (seqZ c (Z.of_nat len))).

(** The worker that the Merge button would start on a window. *)
Definition job_of (g : PdfMergerApp.gui) (output : string) : MergeWorker.t :=
  MergeWorker.init (PdfMergerApp.get_files (PdfMergerApp.self g)) output
                   (PdfMergerApp.excluded_pages (PdfMergerApp.self g)).

(** Whether a dropped path passes the test of [dropEvent]. *)
Definition is_pdf_name (path : string) : bool := endswith (lower path) ".pdf".

(** What a session keeps true while it has not been aborted: the Merge
    button is enabled exactly when two documents or more are listed, and
    every worker started has two files or more. *)
Definition buttons_in_step (a : PdfMergerApp.t) : Prop :=
  PdfMergerApp.merge_btn_enabled a
  = bool_decide (2 ≤ length (PdfMergerApp.list_widget a))%nat
  ∧ PdfMergerApp.preview_btn_enabled a = PdfMergerApp.merge_btn_enabled a.

Definition well_started `{PdfLibrary page} (x : Session.t page) : Prop :=
  (Session.aborted x = false → buttons_in_step (Session.window x))
  ∧ (∀ k job c, Session.threads x !! k = Some (job, c) →
                (2 ≤ length (MergeWorker.files job))%nat).

(** * Verification *)

Open Scope list_scope.

(** A string is not among the strings of an explicit list. *)
Ltac not_in_list :=
  repeat (apply not_elem_of_cons; split; [discriminate|]); apply not_elem_of_nil.

(** Closing a goal by evaluation. *)
Ltac by_compute := vm_compute; first [reflexivity | discriminate].

(** ** The monad *)

Lemma for_each_app {St A} (xs ys : list A) (body : A → py St unit) (s : St) :
  for_each (xs ++ ys) body s =
  match for_each xs body s with
  | (s', Ok _) => for_each ys body s'
  | (s', Raise e) => (s', Raise e)
  end.
Proof.
  revert s. induction xs as [|x xs IH]; intros s; simpl; [done|].
  unfold py_bind. destruct (body x s) as [s' [[]|e]]; [apply IH|done].
Qed.

(** ** The store of set objects *)

Lemma store_file_twice path data data' w :
  store_file path data (store_file path data' w) = store_file path data w.
Proof. unfold store_file. simpl. by rewrite insert_insert_eq. Qed.

(** Opening and writing in one equation. *)
Lemma write_pages_spec `{PdfLibrary page} (path : string) (pages : list page) (w : world) :
  write_pages path pages w =
  (written path (write_pdf pages) w,
   match write_failure (fs w) path with
   | Some e => Raise e
   | None => Ok tt
   end).
Proof.
  unfold write_pages, open_wb, write_bytes, written, write_failure.
  case_bool_decide as Hpath; cbn [fs store_file unwritable breaks_after].
  - destruct (breaks_after (fs w) !! path) as [n|] eqn:Hn;
      cbn [fs store_file unwritable breaks_after].
    + rewrite bool_decide_eq_true_2 by done. rewrite Hn. by rewrite store_file_twice.
    + done.
  - rewrite bool_decide_eq_false_2 by done.
    by rewrite store_file_twice.
Qed.

Lemma written_frame path data w :
  sets (written path data w) = sets w
  ∧ unwritable (fs (written path data w)) = unwritable (fs w)
  ∧ breaks_after (fs (written path data w)) = breaks_after (fs w)
  ∧ ∀ other, other ≠ path →
      contents (fs (written path data w)) !! other = contents (fs w) !! other.
Proof.
  unfold written. case_bool_decide; [destruct (breaks_after (fs w) !! path)|];
    cbn; split_and!; try done; intros other Hother; by rewrite lookup_insert_ne.
Qed.

Lemma written_writable path data w :
  path ∉ unwritable (fs w) → written path data w = store_file path data w.
Proof. intros Hpath. unfold written. by rewrite bool_decide_eq_false_2. Qed.

Lemma write_failure_writable disk path :
  path ∉ unwritable disk → write_failure disk path = None.
Proof. intros Hpath. unfold write_failure. by rewrite bool_decide_eq_false_2. Qed.

Lemma set_at_update_set l f w : set_at (update_set l f w) l = f (set_at w l).
Proof. unfold set_at, update_set; simpl. by rewrite lookup_insert_eq. Qed.

Lemma update_set_twice l f h w :
  update_set l f (update_set l h w) = update_set l (λ s, f (h s)) w.
Proof.
  unfold update_set at 1 3. rewrite set_at_update_set. simpl. f_equal.
  apply insert_insert_eq.
Qed.

(** ** Tokens *)

Lemma token_pages_has t z : z ∈ token_pages t ↔ token_has t z = true.
Proof.
  destruct t as [n|a b]; simpl.
  - rewrite elem_of_singleton, Z.eqb_eq. done.
  - rewrite elem_of_list_to_set, andb_true_iff, !Z.leb_le. split.
    + intros [i Hi]%list_elem_of_lookup_1. apply lookup_seqZ in Hi. lia.
    + intros Hz. apply list_elem_of_lookup. exists (Z.to_nat (z - a)).
      apply lookup_seqZ. lia.
Qed.

Lemma pages_of_cons part rest :
  pages_of (part :: rest) =
  match read_token part with
  | Some t => token_pages t ∪ pages_of rest
  | None => pages_of rest
  end.
Proof. unfold pages_of. simpl. by destruct (read_token part). Qed.

Lemma pages_of_union parts : union_of_tokens parts (pages_of parts).
Proof.
  unfold union_of_tokens. intros z. induction parts as [|part rest IH].
  - split.
    + unfold pages_of; simpl. intros Hz. by apply elem_of_empty in Hz.
    + intros (p & t & Hp & _). by apply elem_of_nil in Hp.
  - rewrite pages_of_cons. split.
    + destruct (read_token part) as [t|] eqn:Ht.
      * rewrite elem_of_union, token_pages_has. intros [Hz|Hz].
        -- exists part, t. split; [left|done].
        -- apply IH in Hz as (p & t' & Hp & Ht' & Hz). exists p, t'. split; [by right|done].
      * intros Hz. apply IH in Hz as (p & t' & Hp & Ht' & Hz).
        exists p, t'. split; [by right|done].
    + intros (p & t & Hp & Ht & Hz). apply elem_of_cons in Hp as [->|Hp].
      * rewrite Ht. apply elem_of_union_l. by apply token_pages_has.
      * assert (z ∈ pages_of rest) by (apply IH; eauto).
        destruct (read_token part); [by apply elem_of_union_r|done].
Qed.

Lemma readable_prefix_all parts :
  Forall (λ part, is_Some (read_token part)) parts → readable_prefix parts = parts.
Proof.
  induction 1 as [|part rest [t Ht] _ IH]; simpl; [done|]. by rewrite Ht, IH.
Qed.

Lemma some_token_unreadable parts :
  ¬ Forall (λ part, is_Some (read_token part)) parts →
  ∃ part, part ∈ parts ∧ read_token part = None.
Proof.
  induction parts as [|part rest IH]; intros Hnot.
  - destruct Hnot. constructor.
  - destruct (read_token part) as [t|] eqn:Ht.
    + destruct IH as (p & Hp & Hnone).
      { intros Hrest. apply Hnot. constructor; [by rewrite Ht|done]. }
      exists p. split; [by right|done].
    + exists part. split; [left|done].
Qed.

Lemma readable_prefix_bad parts :
  (∃ part, part ∈ parts ∧ read_token part = None) →
  ∃ pre bad post, parts = pre ++ bad :: post ∧ readable_prefix parts = pre
                  ∧ Forall (λ part, is_Some (read_token part)) pre
                  ∧ read_token bad = None.
Proof.
  induction parts as [|part rest IH]; intros (p & Hp & Hbad).
  - by apply elem_of_nil in Hp.
  - simpl. destruct (read_token part) as [t|] eqn:Ht.
    + apply elem_of_cons in Hp as [->|Hp]; [congruence|].
      destruct IH as (pre & bad & post & -> & Hpre & Hall & Hb); [eauto|].
      exists (part :: pre), bad, post. rewrite Hpre. repeat split; [|done].
      constructor; [by rewrite Ht|done].
    + exists [], part, rest. repeat split; [constructor|done].
Qed.

(** ** The page-exclusion parser *)

Section Parser.
Context {page : Type} `{!PdfLibrary page}.
Import PdfMergerApp.

Lemma read_pages_update_set l f (w : world) path :
  read_pages (update_set l f w) path = read_pages w path.
Proof. done. Qed.

Lemma sum_pages_update_set l f (w : world) total paths :
  sum_pages (update_set l f w) total paths = sum_pages w total paths.
Proof.
  revert total. induction paths as [|p rest IH]; intros total; simpl; [done|].
  unfold count_pages. rewrite read_pages_update_set.
  destruct (read_pages w p); [apply IH|done].
Qed.

Lemma unpack_two_ints_spec pieces :
  unpack_two_ints pieces =
  match pieces with
  | [x; y] =>
      match int_of_str x, int_of_str y with
      | Some a, Some b => Ok (a, b)
      | _, _ => Raise ValueError
      end
  | _ => Raise ValueError
  end.
Proof.
  destruct pieces as [|x [|y [|z rest]]]; simpl; unfold int; try done.
  - by destruct (int_of_str x).
  - by destruct (int_of_str x), (int_of_str y).
  - by destruct (int_of_str x), (int_of_str y), (int_of_str z).
Qed.

(** One token: a token that reads adds its pages to the set object,
    one that does not read raises and leaves the state alone. *)
Lemma exclude_part_spec part pages g :
  exclude_part part (with_excluded pages g) =
  match read_token part with
  | Some t => (with_excluded (pages ∪ token_pages t) g, Ok tt)
  | None => (with_excluded pages g, Raise ValueError)
  end.
Proof.
  unfold exclude_part, read_token, py_bind, py_get, py_lift, on_env, py_modify.
  destruct (contains "-"%char part).
  - rewrite unpack_two_ints_spec.
    destruct (split "-"%char part) as [|x [|y [|z rest]]]; try done.
    destruct (int_of_str x) as [a|]; [|done].
    destruct (int_of_str y) as [b|]; [|done].
    unfold with_excluded; simpl. rewrite update_set_twice.
    unfold range. by replace (b + 1 - a) with (b - a + 1) by lia.
  - unfold int. destruct (int_of_str part) as [n|]; [|done].
    unfold with_excluded; simpl. by rewrite update_set_twice.
Qed.

Lemma exclude_parts_readable parts pages g :
  Forall (λ part, is_Some (read_token part)) parts →
  for_each parts exclude_part (with_excluded pages g) =
  (with_excluded (pages ∪ pages_of parts) g, Ok tt).
Proof.
  intros Hall. revert pages.
  induction Hall as [|part rest [t Ht] _ IH]; intros pages; simpl.
  - unfold py_ret, pages_of; simpl. by rewrite (right_id_L ∅ (∪)).
  - unfold py_bind. rewrite exclude_part_spec, pages_of_cons, Ht, IH.
    by rewrite (assoc_L (∪)).
Qed.

Lemma exclude_parts_bad pre bad post pages g :
  Forall (λ part, is_Some (read_token part)) pre →
  read_token bad = None →
  for_each (pre ++ bad :: post) exclude_part (with_excluded pages g) =
  (with_excluded (pages ∪ pages_of pre) g, Raise ValueError).
Proof.
  intros Hpre Hbad. rewrite for_each_app, exclude_parts_readable by done.
  simpl. unfold py_bind. by rewrite exclude_part_spec, Hbad.
Qed.

(** The loop over the tokens in all cases: the set object ends up with
    the pages of the tokens in front of the first bad one, and the loop
    raises exactly when there is a bad one. *)
Lemma exclude_parts_spec parts g :
  for_each parts exclude_part (with_excluded ∅ g) =
  (with_excluded (pages_of (readable_prefix parts)) g,
   if bool_decide (Forall (λ part, is_Some (read_token part)) parts)
   then Ok tt else Raise ValueError).
Proof.
  case_bool_decide as Hall.
  - rewrite exclude_parts_readable, readable_prefix_all by done.
    by rewrite (left_id_L ∅ (∪)).
  - destruct (readable_prefix_bad parts) as (pre & bad & post & -> & Hpre & Hok & Hbad).
    { by apply some_token_unreadable. }
    rewrite Hpre, exclude_parts_bad by done. by rewrite (left_id_L ∅ (∪)).
Qed.

(** What a run of [update_page_count] can change: the label, and
    nothing when a listed file cannot be read. *)
Lemma update_page_count_spec g :
  update_page_count g =
  match sum_pages (env g) 0 (get_files (self g)) with
  | Ok total =>
      ({| env := env g;
          self := set_page_count_label
                    ("Total pages: " +:+
                     pretty (Z.max (total - Z.of_nat (size (excluded_of g))) 0))
                    (self g) |}, Ok tt)
  | Raise e => (g, Raise e)
  end.
Proof.
  unfold update_page_count, py_bind, py_get, py_lift.
  by destruct (sum_pages (env g) 0 (get_files (self g))).
Qed.

Lemma excluded_of_with_excluded pages g : excluded_of (with_excluded pages g) = pages.
Proof. unfold excluded_of, with_excluded; simpl. apply set_at_update_set. Qed.

(** The handler in one equation. *)
Lemma apply_page_removal_spec g :
  let text := remove_spaces (page_input (self g)) in
  let parts := split ","%char text in
  apply_page_removal g =
  if bool_decide (text = "") then update_page_count (with_excluded ∅ g)
  else
    let g1 := with_excluded (pages_of (readable_prefix parts)) g in
    if bool_decide (Forall (λ part, is_Some (read_token part)) parts) then
      match update_page_count g1 with
      | (g2, Ok _) => (g2, Ok tt)
      | (g2, Raise _) =>
          ({| env := env g2; self := show_message "Error" "Invalid page range format" (self g2) |},
           Ok tt)
      end
    else
      ({| env := env g1; self := show_message "Error" "Invalid page range format" (self g1) |},
       Ok tt).
Proof.
  intros text parts. unfold apply_page_removal.
  unfold py_bind at 1. unfold py_get at 1. unfold py_bind at 1.
  unfold on_env at 1, py_modify at 1.
  change {| env := update_set (excluded_pages (self g)) (λ _, ∅) (env g); self := self g |}
    with (with_excluded ∅ g).
  fold text. case_bool_decide as Htext; [done|].
  unfold try_except, py_bind. fold parts. rewrite exclude_parts_spec.
  case_bool_decide as Hall; [|done].
  by destruct (update_page_count _) as [g2 [[]|e]].
Qed.

End Parser.

Lemma remove_spaces_spaces_only s : spaces_only s = true → remove_spaces s = "".
Proof.
  induction s as [|c s IH]; simpl; [done|].
  intros [Hc Hs]%andb_true_iff. rewrite Hc. by apply IH.
Qed.

Lemma snoc_ne {A} (l : list A) (x : A) : l ++ [x] ≠ l.
Proof.
  intros Heq. apply (f_equal length) in Heq. rewrite length_app in Heq. simpl in Heq. lia.
Qed.

(** C1 (as stated, refuted): with 7 in the exclusion set, applying the
    expression [a,2], whose first token is not an integer, is rejected
    with the format warning and leaves the set empty, not as it was; and
    applying [2,a] leaves the set holding page 2, the result of the token
    in front of the bad one. *)
Lemma C1_failed_parse_clears_the_set :
  let g := sample_gui "a,2" [7] in
  let g' := fst (PdfMergerApp.apply_page_removal g) in
  let h := sample_gui "2,a" [7] in
  let h' := fst (PdfMergerApp.apply_page_removal h) in
  (∃ part, part ∈ split ","%char (remove_spaces (PdfMergerApp.page_input (PdfMergerApp.self g)))
           ∧ read_token part = None)
  ∧ PdfMergerApp.message_boxes (PdfMergerApp.self g') = [invalid_format]
  ∧ excluded_of g = {[ 7 ]}
  ∧ excluded_of g' = ∅
  ∧ excluded_of g' ≠ excluded_of g
  ∧ PdfMergerApp.message_boxes (PdfMergerApp.self h') = [invalid_format]
  ∧ excluded_of h = {[ 7 ]}
  ∧ excluded_of h' = {[ 2 ]}.
Proof.
  split_and!; [|by_compute..].
  exists "a". split; [left|reflexivity].
Qed.

(** C1 (amended): for every expression that is not blank and has a token
    that is not an integer or a range of two integers, applying it shows
    the warning "Invalid page range format" and returns normally; the
    set object, which the handler empties on entry, then holds the pages
    of the tokens in front of the first bad token and nothing of what it
    held before; the files on disk and the list of documents are as they
    were. *)
Theorem C1_failed_parse_reports_invalid_format
    {page : Type} `{!PdfLibrary page} (g : PdfMergerApp.gui) :
  let text := remove_spaces (PdfMergerApp.page_input (PdfMergerApp.self g)) in
  let parts := split ","%char text in
  let g' := fst (PdfMergerApp.apply_page_removal g) in
  text ≠ "" →
  (∃ part, part ∈ parts ∧ read_token part = None) →
  snd (PdfMergerApp.apply_page_removal g) = Ok tt
  ∧ PdfMergerApp.message_boxes (PdfMergerApp.self g')
    = PdfMergerApp.message_boxes (PdfMergerApp.self g) ++ [invalid_format]
  ∧ excluded_of g' = pages_of (readable_prefix parts)
  ∧ fs (PdfMergerApp.env g') = fs (PdfMergerApp.env g)
  ∧ PdfMergerApp.list_widget (PdfMergerApp.self g')
    = PdfMergerApp.list_widget (PdfMergerApp.self g).
Proof.
  intros text parts g' Htext (bad & Hin & Hbad). subst g'.
  rewrite apply_page_removal_spec. fold text parts.
  rewrite bool_decide_eq_false_2 by done.
  rewrite bool_decide_eq_false_2.
  2:{ intros Hall. rewrite Forall_forall in Hall.
      destruct (Hall bad Hin) as [t Ht]. congruence. }
  simpl. split_and!; try done. apply excluded_of_with_excluded.
Qed.

Lemma C1_failed_parse_reports_invalid_format_witness :
  let g := sample_gui "2,a,9" [7] in
  let g' := fst (PdfMergerApp.apply_page_removal g) in
  let h := sample_gui (ones 4301 +:+ ",a") [7] in
  let h' := fst (PdfMergerApp.apply_page_removal h) in
  PdfMergerApp.message_boxes (PdfMergerApp.self g') = [invalid_format]
  ∧ excluded_of g' = pages_of ["2"]
  ∧ int_of_str (ones 4300) ≠ None
  ∧ int_of_str (ones 4301) = None
  ∧ PdfMergerApp.message_boxes (PdfMergerApp.self h') = [invalid_format]
  ∧ excluded_of h' = ∅.
Proof.
  intros g g' h h'.
  destruct (C1_failed_parse_reports_invalid_format g) as (_ & Hbox & Hset & _).
  - vm_compute. discriminate.
  - exists "a". split; [right; left|reflexivity].
  - destruct (C1_failed_parse_reports_invalid_format h) as (_ & Hbox' & Hset' & _).
    + vm_compute. discriminate.
    + exists "a". split; [|reflexivity].
      apply (list_elem_of_lookup_2 _ 1%nat). by_compute.
    + split_and!; [exact Hbox|exact Hset|by_compute|by_compute|exact Hbox'|].
      etransitivity; [exact Hset'|]. by_compute.
Defined.

(** C4: when an expression that is not blank is applied without a
    warning, each of its comma-separated tokens reads as an integer or
    as a range of two integers, and the exclusion set is exactly the
    union of the tokens: the integer of a bare token, every integer from
    [a] to [b] for a range [a-b], none when [a > b]. So [2,5,8-10] gives
    {2,5,8,9,10}, [3-3] gives {3}, and [5-2] gives the empty set and is
    accepted without a warning. *)
Theorem C4_parsed_set_is_union_of_tokens
    {page : Type} `{!PdfLibrary page} (g : PdfMergerApp.gui) :
  let text := remove_spaces (PdfMergerApp.page_input (PdfMergerApp.self g)) in
  let parts := split ","%char text in
  let g' := fst (PdfMergerApp.apply_page_removal g) in
  (text ≠ "" →
   snd (PdfMergerApp.apply_page_removal g) = Ok tt →
   PdfMergerApp.message_boxes (PdfMergerApp.self g')
   = PdfMergerApp.message_boxes (PdfMergerApp.self g) →
   Forall (λ part, is_Some (read_token part)) parts
   ∧ union_of_tokens parts (excluded_of g'))
  ∧ (PdfMergerApp.page_input (PdfMergerApp.self g) = "2,5,8-10" →
     excluded_of g' = {[ 2; 5; 8; 9; 10 ]})
  ∧ (PdfMergerApp.page_input (PdfMergerApp.self g) = "3-3" →
     excluded_of g' = {[ 3 ]})
  ∧ (PdfMergerApp.page_input (PdfMergerApp.self g) = "5-2" →
     excluded_of g' = ∅
     ∧ (∀ total,
          PdfMergerApp.sum_pages (PdfMergerApp.env g) 0
            (PdfMergerApp.get_files (PdfMergerApp.self g)) = Ok total →
          PdfMergerApp.message_boxes (PdfMergerApp.self g')
          = PdfMergerApp.message_boxes (PdfMergerApp.self g))).
Proof.
  intros text parts g'.
  assert (Hshape : text ≠ "" →
    excluded_of g' = pages_of (readable_prefix parts)
    ∧ (Forall (λ part, is_Some (read_token part)) parts
       ∨ PdfMergerApp.message_boxes (PdfMergerApp.self g')
         = PdfMergerApp.message_boxes (PdfMergerApp.self g) ++ [invalid_format])
    ∧ (Forall (λ part, is_Some (read_token part)) parts →
       ∀ total,
         PdfMergerApp.sum_pages (PdfMergerApp.env g) 0
           (PdfMergerApp.get_files (PdfMergerApp.self g)) = Ok total →
         PdfMergerApp.message_boxes (PdfMergerApp.self g')
         = PdfMergerApp.message_boxes (PdfMergerApp.self g))).
  { intros Htext. subst g'. rewrite apply_page_removal_spec. fold text parts.
    rewrite bool_decide_eq_false_2 by done. cbv zeta.
    case_bool_decide as Hall.
    - rewrite update_page_count_spec. simpl. rewrite sum_pages_update_set.
      destruct (PdfMergerApp.sum_pages _ _ _) as [total|e]; simpl.
      + split_and!; [apply excluded_of_with_excluded|by left|done].
      + split_and!; [apply excluded_of_with_excluded|by left|done].
    - simpl. split_and!; [apply excluded_of_with_excluded|by right|done]. }
  split_and!.
  - intros Htext _ Hboxes. destruct (Hshape Htext) as (Hset & [Hall|Hwarn] & _).
    + split; [done|]. rewrite Hset, readable_prefix_all by done. apply pages_of_union.
    + rewrite Hwarn in Hboxes. by apply snoc_ne in Hboxes.
  - intros Hin.
    assert (Htext : text ≠ "") by (subst text; rewrite Hin; by_compute).
    destruct (Hshape Htext) as (Hset & _).
    rewrite Hset. subst parts text. rewrite Hin. by_compute.
  - intros Hin.
    assert (Htext : text ≠ "") by (subst text; rewrite Hin; by_compute).
    destruct (Hshape Htext) as (Hset & _).
    rewrite Hset. subst parts text. rewrite Hin. by_compute.
  - intros Hin.
    assert (Htext : text ≠ "") by (subst text; rewrite Hin; by_compute).
    destruct (Hshape Htext) as (Hset & _ & Hquiet).
    split.
    + rewrite Hset. subst parts text. rewrite Hin. by_compute.
    + apply Hquiet. subst parts text. rewrite Hin.
      constructor; [|constructor]. by exists (Range 5 2).
Qed.

Lemma C4_parsed_set_is_union_of_tokens_witness :
  let g := sample_gui "2, 5, 8-10" [7] in
  let g' := fst (PdfMergerApp.apply_page_removal g) in
  union_of_tokens ["2"; "5"; "8-10"] (excluded_of g')
  ∧ excluded_of g' = {[ 2; 5; 8; 9; 10 ]}.
Proof.
  intros g g'.
  destruct (C4_parsed_set_is_union_of_tokens g) as (Hgeneral & _).
  destruct Hgeneral as (_ & Hunion).
  - by_compute.
  - by_compute.
  - by_compute.
  - split; [exact Hunion|by_compute].
Defined.

(** C5 (as stated, refuted): a page field holding one tab character is
    all white space, yet applying it shows the format warning: only the
    space character is removed before the text is examined. *)
Lemma C5_tab_is_rejected :
  let g := sample_gui (String (ascii_of_nat 9) EmptyString) [7] in
  let g' := fst (PdfMergerApp.apply_page_removal g) in
  whitespace_only (PdfMergerApp.page_input (PdfMergerApp.self g)) = true
  ∧ PdfMergerApp.message_boxes (PdfMergerApp.self g) = []
  ∧ PdfMergerApp.message_boxes (PdfMergerApp.self g') = [invalid_format].
Proof. split_and!; by_compute. Qed.

(** C5 (amended): for every page field that is empty or holds only space
    characters (U+0020), applying it empties the exclusion set and shows
    no warning; the handler returns normally when the page count that it
    refreshes can be computed, and otherwise the exception of the
    unreadable listed file leaves the handler. *)
Theorem C5_blank_expression_excludes_nothing
    {page : Type} `{!PdfLibrary page} (g : PdfMergerApp.gui) :
  let g' := fst (PdfMergerApp.apply_page_removal g) in
  spaces_only (PdfMergerApp.page_input (PdfMergerApp.self g)) = true →
  excluded_of g' = ∅
  ∧ PdfMergerApp.message_boxes (PdfMergerApp.self g')
    = PdfMergerApp.message_boxes (PdfMergerApp.self g)
  ∧ snd (PdfMergerApp.apply_page_removal g)
    = match PdfMergerApp.sum_pages (PdfMergerApp.env g) 0
              (PdfMergerApp.get_files (PdfMergerApp.self g)) with
      | Ok _ => Ok tt
      | Raise e => Raise e
      end.
Proof.
  intros g' Hblank. subst g'. rewrite apply_page_removal_spec.
  rewrite (remove_spaces_spaces_only _ Hblank). rewrite bool_decide_eq_true_2 by done.
  rewrite update_page_count_spec. simpl. rewrite sum_pages_update_set.
  destruct (PdfMergerApp.sum_pages _ _ _) as [total|e]; simpl;
    (split_and!; [apply excluded_of_with_excluded|done|done]).
Qed.

Lemma C5_blank_expression_excludes_nothing_witness :
  let g := sample_gui "   " [7] in
  let g' := fst (PdfMergerApp.apply_page_removal g) in
  excluded_of g = {[ 7 ]}
  ∧ excluded_of g' = ∅
  ∧ PdfMergerApp.message_boxes (PdfMergerApp.self g') = []
  ∧ snd (PdfMergerApp.apply_page_removal g) = Ok tt.
Proof.
  intros g g'.
  destruct (C5_blank_expression_excludes_nothing g) as (Hset & Hbox & Hres).
  - by_compute.
  - split_and!; [by_compute|exact Hset|exact Hbox|].
    rewrite Hres. by_compute.
Defined.

(** ** The merge *)

Lemma kept_from_nil {A} excluded c : kept_from excluded c (@nil A) = [].
Proof. done. Qed.

Lemma kept_from_cons {A} excluded c (p : A) pages :
  kept_from excluded c (p :: pages) =
  (if bool_decide (c ∈ excluded) then [] else [p]) ++ kept_from excluded (c + 1) pages.
Proof.
  unfold kept_from. rewrite imap_cons. simpl.
  assert (Htail : imap ((λ i q, (Z.of_nat i + c, q)) ∘ S) pages
                  = imap (λ i (q : A), (Z.of_nat i + (c + 1), q)) pages).
  { apply imap_ext. intros i q _. simpl. f_equal. lia. }
  rewrite Htail. rewrite filter_cons. simpl.
  change (Z.of_nat 0 + c) with c.
  destruct (decide (c ∉ excluded)) as [Hout|Hin].
  - rewrite bool_decide_eq_false_2 by done. done.
  - rewrite bool_decide_eq_true_2; [done|]. by apply dec_stable.
Qed.

Lemma kept_from_app {A} excluded c (xs ys : list A) :
  kept_from excluded c (xs ++ ys) =
  kept_from excluded c xs ++ kept_from excluded (c + Z.of_nat (length xs)) ys.
Proof.
  revert c. induction xs as [|x xs IH]; intros c; simpl.
  - by replace (c + Z.of_nat 0) with c by lia.
  - rewrite !kept_from_cons, IH, <- app_assoc. do 3 f_equal. lia.
Qed.

Lemma surviving_kept_from {A} excluded (docs : list (list A)) :
  surviving excluded docs = kept_from excluded 1 (concat docs).
Proof. done. Qed.

Lemma reports_from_S i n m :
  reports_from i n (S m) = progress (percent_value i n) (status_of i n) :: reports_from (i + 1) n m.
Proof.
  unfold reports_from. rewrite seqZ_cons by lia. simpl. do 3 f_equal; lia.
Qed.

Lemma percent_of_value i n : n ≠ 0 → percent_of i n = Ok (percent_value i n).
Proof.
  intros Hn. unfold percent_of, truediv.
  rewrite (proj2 (Z.eqb_neq n 0) Hn). unfold percent_value. reflexivity.
Qed.

Section Merge.
Context {page : Type} `{!PdfLibrary page}.
Import MergeWorker.

(** The page loop: it never touches the world or the signals, the
    counter advances by one per page fetched, and a page is appended
    exactly when its number is not in the set. *)
Lemma copy_pages_spec (job : t) pages (s : state page) :
  for_each pages (copy_page job) s =
  ({| env := env s;
      writer := writer s ++ kept_from (set_at (env s) (excluded_pages job))
                                      (current_page s) (fetched pages);
      current_page := current_page s + Z.of_nat (length (fetched pages));
      emitted := emitted s |},
   match first_failure pages with
   | None => Ok tt
   | Some e => Raise e
   end).
Proof.
  revert s. induction pages as [|[p|e] pages IH]; intros [w wr c em]; simpl.
  - unfold py_ret. rewrite kept_from_nil, app_nil_r. f_equal. f_equal. lia.
  - unfold py_bind at 1. unfold copy_page, py_bind, py_lift, py_get. simpl.
    rewrite kept_from_cons. case_bool_decide; simpl.
    + rewrite IH. simpl. f_equal. f_equal. lia.
    + rewrite IH. simpl. rewrite <- app_assoc. simpl. f_equal. f_equal. lia.
  - unfold py_bind, copy_page, py_lift. simpl.
    rewrite kept_from_nil, app_nil_r. f_equal. f_equal. lia.
Qed.

(** The loop over the remaining files, from any point of it. *)
Lemma merge_files_spec (job : t) (n : Z) paths (i : Z) (s : state page) :
  n ≠ 0 →
  for_each (enumerate_from i paths) (merge_file job n) s =
  ({| env := env s;
      writer := writer s ++ kept_from (set_at (env s) (excluded_pages job))
                                      (current_page s) (pages_fetched (env s) paths);
      current_page := current_page s + Z.of_nat (length (pages_fetched (env s) paths));
      emitted := emitted s ++ reports_from i n (length (readable_sources (env s) paths)) |},
   match first_read_error (env s) paths with
   | None => Ok tt
   | Some e => Raise e
   end).
Proof.
  intros Hn. revert i s. induction paths as [|path rest IH]; intros i [w wr c em]; simpl.
  - unfold py_ret. rewrite kept_from_nil, !app_nil_r. f_equal. f_equal. lia.
  - unfold py_bind at 1. unfold merge_file at 1. simpl.
    unfold py_bind at 1. unfold open_reader, py_bind, py_get, py_lift. simpl.
    unfold read_failure, source_pages.
    destruct (read_pages w path) as [pages|e]; simpl.
    + rewrite copy_pages_spec. simpl.
      destruct (first_failure pages) as [e|]; simpl.
      * by rewrite app_nil_r.
      * unfold report, py_bind, py_lift. rewrite percent_of_value by done.
        unfold emit, py_modify. simpl. rewrite IH. simpl.
        rewrite kept_from_app, length_app, reports_from_S, !app_assoc.
        rewrite <- (app_assoc em). simpl. f_equal. f_equal. lia.
    + rewrite kept_from_nil, !app_nil_r. f_equal. f_equal. lia.
Qed.

Lemma readable_sources_all (w : world) paths :
  first_read_error w paths = None → readable_sources w paths = paths.
Proof.
  induction paths as [|path rest IH]; simpl; [done|].
  destruct (read_failure w path); [done|]. intros Hrest. by rewrite IH.
Qed.

(** [run] in one equation: it returns normally, in the state
    [run_outcome]. *)
Theorem run_spec (job : t) (w : world) :
  run job (boot w) = (run_outcome w job, Ok tt).
Proof.
  unfold run, try_except, run_outcome, last_signal.
  unfold py_bind at 1. unfold fresh_locals at 1, py_modify at 1, boot. simpl.
  unfold py_bind at 1. unfold enumerate.
  destruct (files job) as [|path rest] eqn:Hfiles.
  - simpl. unfold py_ret, py_bind at 1, save. rewrite write_pages_spec. simpl.
    rewrite kept_from_nil.
    destruct (write_failure (fs w) (output job)); simpl; done.
  - rewrite merge_files_spec.
    2:{ unfold total_files. rewrite Hfiles. simpl. lia. }
    simpl env. simpl writer. simpl current_page. simpl emitted.
    destruct (first_read_error w (path :: rest)) as [e|] eqn:Herr.
    + unfold emit, py_modify. simpl. done.
    + unfold py_bind at 1, save. rewrite write_pages_spec. simpl.
      destruct (write_failure (fs w) (output job)); simpl.
      * unfold emit, py_modify. simpl. done.
      * unfold emit, py_modify. simpl. done.
Qed.

End Merge.

Section MergeFacts.
Context {page : Type} `{!PdfLibrary page}.
Import MergeWorker.

Lemma fetched_ok (doc : list page) : fetched (Ok <$> doc) = doc.
Proof. induction doc as [|p doc IH]; simpl; [done|]. by f_equal. Qed.

Lemma first_failure_ok (doc : list page) : first_failure (Ok <$> doc) = None.
Proof. by induction doc. Qed.

Lemma all_readable_spec (w : world) paths docs :
  all_readable w paths docs →
  first_read_error w paths = None
  ∧ readable_sources w paths = paths
  ∧ pages_fetched w paths = concat docs.
Proof.
  induction 1 as [|path doc paths docs Hread _ (IH1 & IH2 & IH3)]; simpl; [done|].
  unfold read_failure, source_pages. rewrite Hread, first_failure_ok, fetched_ok.
  by rewrite IH1, IH2, IH3.
Qed.

(** The sources in front of the first failing one, that one, and the
    rest. *)
Lemma first_read_error_split (w : world) paths e :
  first_read_error w paths = Some e →
  ∃ bad post,
    paths = readable_sources w paths ++ bad :: post
    ∧ read_failure w bad = Some e
    ∧ Forall (λ path, read_failure w path = None) (readable_sources w paths).
Proof.
  induction paths as [|path rest IH]; simpl; [done|].
  destruct (read_failure w path) as [e'|] eqn:Hpath.
  - intros [= ->]. exists path, rest. by split_and!.
  - intros (bad & post & Hsplit & Hbad & Hpre)%IH.
    exists bad, post. split_and!; [simpl; by f_equal|done|by constructor].
Qed.

Lemma first_read_error_some (w : world) paths :
  (∃ path, path ∈ paths ∧ read_failure w path ≠ None) →
  ∃ e, first_read_error w paths = Some e.
Proof.
  induction paths as [|path rest IH]; intros (bad & Hin & Hbad).
  - by apply elem_of_nil in Hin.
  - simpl. destruct (read_failure w path) as [e|] eqn:Hpath; [eauto|].
    apply elem_of_cons in Hin as [->|Hin]; [congruence|]. apply IH. eauto.
Qed.

Lemma length_readable_sources (w : world) paths :
  (length (readable_sources w paths) ≤ length paths)%nat.
Proof.
  induction paths as [|path rest IH]; simpl; [done|].
  destruct (read_failure w path); simpl; lia.
Qed.

Lemma progress_events_reports i n m :
  progress_events (reports_from i n m) =
  (λ j, (percent_value j n, status_of j n)) <$> seqZ i (Z.of_nat m).
Proof.
  unfold reports_from, progress_events.
  induction (seqZ i (Z.of_nat m)) as [|j js IH]; simpl; [done|]. by f_equal.
Qed.

Lemma progress_events_app sigs1 sigs2 :
  progress_events (sigs1 ++ sigs2) = progress_events sigs1 ++ progress_events sigs2.
Proof. unfold progress_events. apply omap_app. Qed.

Lemma progress_events_run (job : t) (w : world) :
  progress_events (emitted (run_outcome w job)) =
  (λ j, (percent_value j (total_files job), status_of j (total_files job)))
    <$> seqZ 0 (Z.of_nat (length (readable_sources w (files job)))).
Proof.
  unfold run_outcome. simpl. rewrite progress_events_app, progress_events_reports.
  unfold last_signal.
  destruct (first_read_error w (files job)); simpl; [by rewrite app_nil_r|].
  destruct (write_failure (fs w) (output job)); simpl; by rewrite app_nil_r.
Qed.

(** Two worlds that agree on the sources are read alike. *)
Lemma read_agree (w w' : world) paths :
  (∀ path, path ∈ paths → contents (fs w) !! path = contents (fs w') !! path) →
  first_read_error w paths = first_read_error w' paths
  ∧ readable_sources w paths = readable_sources w' paths
  ∧ pages_fetched w paths = pages_fetched w' paths.
Proof.
  induction paths as [|path rest IH]; intros Hagree; simpl; [done|].
  assert (Hread : read_pages w path = read_pages w' path).
  { unfold read_pages. rewrite (Hagree path) by left. done. }
  unfold read_failure, source_pages. rewrite Hread.
  destruct IH as (IH1 & IH2 & IH3).
  { intros p Hp. apply Hagree. by right. }
  by rewrite IH1, IH2, IH3.
Qed.

End MergeFacts.

(** ** The percentage *)

Lemma percent_checked_upto_200 :
  forallb (λ n, forallb (λ k, percent_as_expected k n) (seqZ 1 n)) (seqZ 1 200) = true.
Proof. vm_compute. reflexivity. Qed.

Lemma elem_of_seqZ_1 (k n : Z) : (1 ≤ k ≤ n)%Z → k ∈ seqZ 1 n.
Proof.
  intros Hk. apply list_elem_of_lookup. exists (Z.to_nat (k - 1)).
  apply lookup_seqZ. lia.
Qed.

Lemma percent_as_expected_spec (k n : Z) :
  percent_as_expected k n = true →
  machine_percent (k - 1) n = Some (int_of_float (float_mul (round_binary64 k n) 100))
  ∧ (int_of_float (float_mul (round_binary64 k n) 100) = floored_percent k n
     ∨ int_of_float (float_mul (round_binary64 k n) 100) = floored_percent k n - 1
       ∧ (100 * k) `mod` n = 0).
Proof.
  unfold percent_as_expected. cbv zeta.
  intros [Hfloor Hmachine]%andb_true_iff.
  apply bool_decide_eq_true in Hmachine. split; [done|].
  apply orb_true_iff in Hfloor as [Heq|[Heq Hmod]%andb_true_iff].
  - left. by apply Z.eqb_eq.
  - right. split; by apply Z.eqb_eq.
Qed.

Lemma percent_value_upto_200 (k n : Z) :
  (1 ≤ k ≤ n)%Z → (n ≤ 200)%Z →
  machine_percent (k - 1) n = Some (percent_value (k - 1) n)
  ∧ (percent_value (k - 1) n = floored_percent k n
     ∨ percent_value (k - 1) n = floored_percent k n - 1 ∧ (100 * k) `mod` n = 0).
Proof.
  intros Hk Hn.
  assert (Hkn : percent_as_expected k n = true).
  { pose proof (proj1 (forallb_forall _ _) percent_checked_upto_200 n) as Hall.
    cbv beta in Hall.
    apply (proj1 (forallb_forall _ _)
             (Hall (proj1 (list_elem_of_In _ _) (elem_of_seqZ_1 n 200 ltac:(lia))))).
    apply list_elem_of_In, elem_of_seqZ_1. lia. }
  unfold percent_value. replace (k - 1 + 1) with k by lia.
  by apply percent_as_expected_spec.
Qed.

(** ** The claims about the merge *)

(** C2: when every source can be read and the destination can be
    written, [run] goes through the documents in list order and through
    the pages of each in their order; the writer ends up with exactly
    the pages whose absolute position, counted from 1 across the
    sources, is not in the exclusion set, in order; the counter has
    advanced once per page, kept or not; and the destination holds these
    pages. With sources of 2, 3 and 1 pages and the set {1,4,6} the
    output is the pages at positions 2, 3 and 5; two one-page sources and
    an empty set give both pages in list order. *)
Theorem C2_merge_keeps_the_pages_not_excluded
    {page : Type} `{!PdfLibrary page}
    (job : MergeWorker.t) (w : world) (docs : list (list page)) :
  let s := fst (MergeWorker.run job (MergeWorker.boot w)) in
  let excluded := set_at w (MergeWorker.excluded_pages job) in
  all_readable w (MergeWorker.files job) docs →
  MergeWorker.output job ∉ unwritable (fs w) →
  MergeWorker.writer s = surviving excluded docs
  ∧ MergeWorker.current_page s = 1 + Z.of_nat (length (concat docs))
  ∧ contents (fs (MergeWorker.env s)) !! MergeWorker.output job
    = Some (write_pdf (surviving excluded docs))
  ∧ last (MergeWorker.emitted s) = Some finished
  ∧ (∀ p1 p2 p3 p4 p5 p6,
       docs = [[p1; p2]; [p3; p4; p5]; [p6]] → excluded = {[ 1; 4; 6 ]} →
       MergeWorker.writer s = [p2; p3; p5])
  ∧ (∀ p q, docs = [[p]; [q]] → excluded = ∅ → MergeWorker.writer s = [p; q]).
Proof.
  intros s excluded Hread Hout. subst s. rewrite run_spec. simpl fst.
  destruct (all_readable_spec _ _ _ Hread) as (Herr & Hall & Hpages).
  assert (Hlast : last_signal w job = finished).
  { unfold last_signal. rewrite Herr. by rewrite write_failure_writable. }
  assert (Hwriter : MergeWorker.writer (run_outcome w job) = surviving excluded docs).
  { unfold run_outcome. simpl. by rewrite Hpages. }
  split_and!.
  - done.
  - unfold run_outcome. simpl. by rewrite Hpages.
  - unfold run_outcome. simpl. rewrite Herr, Hpages, written_writable by done. simpl.
    by rewrite lookup_insert_eq.
  - unfold run_outcome. simpl. rewrite Hlast. apply last_snoc.
  - intros p1 p2 p3 p4 p5 p6 -> Hset. rewrite Hwriter, Hset. by_compute.
  - intros p q -> Hset. rewrite Hwriter, Hset. by_compute.
Qed.

Lemma C2_merge_keeps_the_pages_not_excluded_witness :
  let s := fst (MergeWorker.run sample_job (MergeWorker.boot (sample_world [1; 4; 6]))) in
  MergeWorker.writer s = [x02; x03; x05]
  ∧ contents (fs (MergeWorker.env s)) !! "out.pdf" = Some [x02; x03; x05].
Proof.
  intros s.
  destruct (C2_merge_keeps_the_pages_not_excluded sample_job (sample_world [1; 4; 6])
              [[x01; x02]; [x03; x04; x05]; [x06]])
    as (_ & _ & Hfile & _ & Hpages & _).
  - repeat constructor.
  - by_compute.
  - split; [apply (Hpages x01 x02 x03 x04 x05 x06); [reflexivity|by_compute]|].
    etransitivity; [exact Hfile|]. by_compute.
Defined.

(** C3 (as stated, refuted): in a merge of three readable sources the
    signal after the second one carries 66, where [100 * 2 / 3] rounded
    to the nearest integer is 67. *)
Lemma C3_percent_is_not_rounded :
  let s := fst (MergeWorker.run sample_job (MergeWorker.boot (sample_world []))) in
  progress_events (MergeWorker.emitted s) !! 1%nat = Some (66, "Merging file 2 of 3")
  ∧ rounded_percent 2 3 = 67.
Proof. split; by_compute. Qed.

(** C3 (amended): in a merge of [n] sources that can all be read, the
    progress signal after the [k]-th source carries the status
    "Merging file k of n" and the percentage [int((k / n) * 100)]: the
    binary64 quotient, times 100, cut toward zero and not rounded. For
    up to 200 sources this is what the machine's floats give, and it is
    [100 * k / n] rounded down, or one less than that in some cases where
    [100 * k / n] is a whole number. *)
Theorem C3_percent_is_truncated
    {page : Type} `{!PdfLibrary page} (job : MergeWorker.t) (w : world) (k : Z) :
  let s := fst (MergeWorker.run job (MergeWorker.boot w)) in
  let n := MergeWorker.total_files job in
  let p := int_of_float (float_mul (round_binary64 k n) 100) in
  first_read_error w (MergeWorker.files job) = None →
  (1 ≤ k ≤ n)%Z →
  progress_events (MergeWorker.emitted s) !! Z.to_nat (k - 1)
  = Some (p, "Merging file " +:+ pretty k +:+ " of " +:+ pretty n)
  ∧ percent_of (k - 1) n = Ok p
  ∧ ((n ≤ 200)%Z →
     machine_percent (k - 1) n = Some p
     ∧ (p = floored_percent k n
        ∨ p = floored_percent k n - 1 ∧ (100 * k) `mod` n = 0)).
Proof.
  intros s n p Hread Hk. subst s. rewrite run_spec. simpl fst.
  assert (Hp : percent_value (k - 1) n = p).
  { unfold percent_value, p. by replace (k - 1 + 1) with k by lia. }
  split_and!.
  - rewrite progress_events_run, (readable_sources_all _ _ Hread).
    rewrite list_lookup_fmap. fold n.
    unfold MergeWorker.total_files in n. fold n.
    rewrite lookup_seqZ_lt by lia. simpl.
    replace (0 + Z.of_nat (Z.to_nat (k - 1))) with (k - 1) by lia. rewrite Hp.
    unfold status_of. by replace (k - 1 + 1) with k by lia.
  - rewrite percent_of_value by lia. by rewrite Hp.
  - intros Hn. rewrite <- Hp. by apply percent_value_upto_200.
Qed.

Lemma C3_percent_is_truncated_witness :
  let s := fst (MergeWorker.run sample_job (MergeWorker.boot (sample_world []))) in
  progress_events (MergeWorker.emitted s) !! 1%nat = Some (66, "Merging file 2 of 3")
  ∧ machine_percent 1 3 = Some 66
  ∧ floored_percent 2 3 = 66.
Proof.
  intros s.
  destruct (C3_percent_is_truncated sample_job (sample_world []) 2) as (Hevent & _ & Hnum).
  - by_compute.
  - vm_compute. split; discriminate.
  - destruct Hnum as (Hmachine & _); [vm_compute; discriminate|].
    split_and!; [exact Hevent|exact Hmachine|by_compute].
Defined.

(** C6: when some source cannot be opened, or one of its pages cannot be
    fetched, [run] stops at the first such source: the sources in front
    of it are reported, the exception of that source is emitted as the
    [error] signal, nothing is reported for it or for any later source,
    [finished] is not emitted, and the world is exactly as before, so no
    file was created or changed at the destination. *)
Theorem C6_unreadable_source_aborts_the_merge
    {page : Type} `{!PdfLibrary page} (job : MergeWorker.t) (w : world) :
  let s := fst (MergeWorker.run job (MergeWorker.boot w)) in
  (∃ path, path ∈ MergeWorker.files job ∧ read_failure w path ≠ None) →
  ∃ pre bad post e,
    MergeWorker.files job = pre ++ (bad :: post)
    ∧ Forall (λ path, read_failure w path = None) pre
    ∧ read_failure w bad = Some e
    ∧ MergeWorker.emitted s
      = reports_from 0 (MergeWorker.total_files job) (length pre) ++ [error e]
    ∧ length (progress_events (MergeWorker.emitted s)) = length pre
    ∧ (finished ∉ MergeWorker.emitted s)
    ∧ MergeWorker.env s = w
    ∧ snd (MergeWorker.run job (MergeWorker.boot w)) = Ok tt.
Proof.
  intros s Hbad. subst s. rewrite run_spec. simpl fst. simpl snd.
  destruct (first_read_error_some _ _ Hbad) as [e He].
  destruct (first_read_error_split _ _ _ He) as (bad & post & Hsplit & Hfail & Hpre).
  exists (readable_sources w (MergeWorker.files job)), bad, post, e.
  assert (Hlast : last_signal w job = error e) by (unfold last_signal; by rewrite He).
  assert (Hemitted : MergeWorker.emitted (run_outcome w job)
            = reports_from 0 (MergeWorker.total_files job)
                (length (readable_sources w (MergeWorker.files job))) ++ [error e]).
  { unfold run_outcome. simpl. by rewrite Hlast. }
  split_and!; try done.
  - rewrite progress_events_run, length_fmap, length_seqZ. lia.
  - rewrite Hemitted. intros [Hin|Hin]%elem_of_app.
    + unfold reports_from in Hin. apply list_elem_of_fmap in Hin as (j & Hj & _). done.
    + apply list_elem_of_singleton in Hin. done.
  - unfold run_outcome. simpl. by rewrite He.
Qed.

Lemma C6_unreadable_source_aborts_the_merge_witness :
  let s := fst (MergeWorker.run broken_job (MergeWorker.boot (sample_world []))) in
  MergeWorker.emitted s
  = [progress 33 "Merging file 1 of 3"; error (FileNotFoundError "missing.pdf")]
  ∧ contents (fs (MergeWorker.env s)) !! "out.pdf" = None.
Proof.
  intros s.
  destruct (C6_unreadable_source_aborts_the_merge broken_job (sample_world []))
    as (pre & bad & post & e & _ & _ & _ & _ & _ & _ & Henv & _).
  - exists "missing.pdf". split; [right; left|by_compute].
  - split; [by_compute|]. fold s in Henv. rewrite Henv. by_compute.
Defined.

(** C7 (as stated, refuted): a merge of three sources of which the second
    is missing emits one progress signal, not three, before its [error]
    signal. *)
Lemma C7_no_progress_after_a_failure :
  let s := fst (MergeWorker.run broken_job (MergeWorker.boot (sample_world []))) in
  length (MergeWorker.files broken_job) = 3%nat
  ∧ progress_events (MergeWorker.emitted s) = [(33, "Merging file 1 of 3")]
  ∧ last (MergeWorker.emitted s) = Some (error (FileNotFoundError "missing.pdf")).
Proof. split_and!; by_compute. Qed.

(** C7 (amended): every merge over [n] sources emits one progress signal
    for each source in front of the first one that cannot be read, all
    [n] of them when every source can be read, in the order of the list
    and each naming its index, and then exactly one last signal,
    [finished] or [error]; four readable sources give the percentages
    25, 50, 75 and 100. *)
Theorem C7_progress_signals_in_order_then_one_final
    {page : Type} `{!PdfLibrary page} (job : MergeWorker.t) (w : world) :
  let s := fst (MergeWorker.run job (MergeWorker.boot w)) in
  let n := MergeWorker.total_files job in
  ∃ (m : nat) (final : signal),
    MergeWorker.emitted s
    = ((λ j, progress (percent_value j n) (status_of j n)) <$> seqZ 0 (Z.of_nat m)) ++ [final]
    ∧ is_final final = true
    ∧ m = length (readable_sources w (MergeWorker.files job))
    ∧ (m ≤ length (MergeWorker.files job))%nat
    ∧ (first_read_error w (MergeWorker.files job) = None →
       m = length (MergeWorker.files job))
    ∧ (first_read_error w (MergeWorker.files job) = None →
       length (MergeWorker.files job) = 4%nat →
       fst <$> progress_events (MergeWorker.emitted s) = [25; 50; 75; 100]).
Proof.
  intros s n. subst s. rewrite run_spec. simpl fst.
  exists (length (readable_sources w (MergeWorker.files job))), (last_signal w job).
  split_and!.
  - done.
  - unfold last_signal. destruct (first_read_error w (MergeWorker.files job)); [done|].
    by destruct (write_failure (fs w) (MergeWorker.output job)).
  - done.
  - apply length_readable_sources.
  - intros Hread. by rewrite (readable_sources_all _ _ Hread).
  - intros Hread Hfour. rewrite progress_events_run, (readable_sources_all _ _ Hread).
    unfold MergeWorker.total_files. rewrite Hfour. by_compute.
Qed.

Lemma C7_progress_signals_in_order_then_one_final_witness :
  let job := MergeWorker.init ["a.pdf"; "b.pdf"; "c.pdf"; "a.pdf"] "out.pdf" 0%nat in
  let s := fst (MergeWorker.run job (MergeWorker.boot (sample_world []))) in
  fst <$> progress_events (MergeWorker.emitted s) = [25; 50; 75; 100].
Proof.
  intros job s.
  destruct (C7_progress_signals_in_order_then_one_final job (sample_world []))
    as (m & final & _ & _ & _ & _ & _ & Hfour).
  apply Hfour; by_compute.
Defined.

(** ** Running a job again *)

Lemma written_twice path data w :
  written path data (written path data w) = written path data w.
Proof.
  destruct (written_frame path data w) as (_ & Hperm & Hbreaks & _).
  unfold written at 1. rewrite Hperm, Hbreaks. unfold written.
  case_bool_decide; [destruct (breaks_after (fs w) !! path)|];
    [|done|]; by rewrite store_file_twice.
Qed.

(** Worlds that agree on what a job reads, and on how a write at its
    destination ends, give the same outcome up to the world itself. *)
Lemma run_outcome_agree {page : Type} `{!PdfLibrary page} (job : MergeWorker.t) (w w' : world) :
  (∀ path, path ∈ MergeWorker.files job →
           contents (fs w) !! path = contents (fs w') !! path) →
  set_at w (MergeWorker.excluded_pages job) = set_at w' (MergeWorker.excluded_pages job) →
  write_failure (fs w) (MergeWorker.output job)
  = write_failure (fs w') (MergeWorker.output job) →
  first_read_error w (MergeWorker.files job) = first_read_error w' (MergeWorker.files job)
  ∧ last_signal w job = last_signal w' job
  ∧ MergeWorker.emitted (run_outcome w job) = MergeWorker.emitted (run_outcome w' job)
  ∧ MergeWorker.writer (run_outcome w job) = MergeWorker.writer (run_outcome w' job)
  ∧ MergeWorker.current_page (run_outcome w job)
    = MergeWorker.current_page (run_outcome w' job).
Proof.
  intros Hfiles Hset Hperm.
  destruct (read_agree w w' _ Hfiles) as (Herr & Hpre & Hpages).
  assert (Hlast : last_signal w job = last_signal w' job).
  { unfold last_signal. by rewrite Herr, Hperm. }
  unfold run_outcome. simpl. by rewrite Hlast, Hset, Hpre, Hpages.
Qed.

(** With the destination outside the sources, a run on the world that
    a run has left ends in the very same state. *)
Lemma run_outcome_again {page : Type} `{!PdfLibrary page} (job : MergeWorker.t) (w : world) :
  MergeWorker.output job ∉ MergeWorker.files job →
  run_outcome (MergeWorker.env (run_outcome w job)) job = run_outcome w job.
Proof.
  intros Hout. set (w1 := MergeWorker.env (run_outcome w job)).
  set (data := write_pdf (MergeWorker.writer (run_outcome w job))).
  assert (Hw1 : w1 = match first_read_error w (MergeWorker.files job) with
                     | Some _ => w
                     | None => written (MergeWorker.output job) data w
                     end) by done.
  destruct (written_frame (MergeWorker.output job) data w)
    as (Hsets' & Hperm' & Hbreaks' & Hothers').
  assert (Hsets : sets w1 = sets w).
  { rewrite Hw1. by destruct (first_read_error w _). }
  assert (Hfail : write_failure (fs w1) (MergeWorker.output job)
                  = write_failure (fs w) (MergeWorker.output job)).
  { rewrite Hw1. destruct (first_read_error w _); [done|].
    unfold write_failure. by rewrite Hperm', Hbreaks'. }
  assert (Hfiles : ∀ path, path ∈ MergeWorker.files job →
            contents (fs w1) !! path = contents (fs w) !! path).
  { intros path Hpath. rewrite Hw1. destruct (first_read_error w _); [done|].
    apply Hothers'. intros ->. done. }
  assert (Hset : set_at w1 (MergeWorker.excluded_pages job)
                 = set_at w (MergeWorker.excluded_pages job)).
  { unfold set_at. by rewrite Hsets. }
  destruct (run_outcome_agree job w1 w Hfiles Hset Hfail)
    as (Herr & _ & Hemitted & Hwriter & Hcurrent).
  assert (Henv : MergeWorker.env (run_outcome w1 job) = w1).
  { change (MergeWorker.env (run_outcome w1 job))
      with (match first_read_error w1 (MergeWorker.files job) with
            | Some _ => w1
            | None => written (MergeWorker.output job)
                        (write_pdf (MergeWorker.writer (run_outcome w1 job))) w1
            end).
    rewrite Herr, Hwriter. fold data.
    destruct (first_read_error w (MergeWorker.files job)) eqn:Hread; [done|].
    rewrite Hw1. apply written_twice. }
  destruct (run_outcome w1 job) as [e1 wr1 c1 em1] eqn:H1.
  destruct (run_outcome w job) as [e0 wr0 c0 em0] eqn:H0.
  cbn in Henv, Hemitted, Hwriter, Hcurrent. subst w1. cbn in Henv. by subst.
Qed.

Lemma rerun_fixed {page : Type} `{!PdfLibrary page} (job : MergeWorker.t) (k : nat) (w : world) :
  MergeWorker.output job ∉ MergeWorker.files job →
  rerun job (S k) w = rerun job 1 w.
Proof.
  intros Hout. induction k as [|k IH]; [done|].
  change (rerun job (S (S k)) w)
    with (MergeWorker.env (fst (MergeWorker.run job (MergeWorker.boot (rerun job (S k) w))))).
  rewrite IH.
  change (rerun job 1 w) with (MergeWorker.env (fst (MergeWorker.run job (MergeWorker.boot w)))).
  rewrite !run_spec. cbn [fst]. by rewrite run_outcome_again.
Qed.

(** C9 (as stated, refuted): the job that merges "a.pdf" and "b.pdf"
    into "a.pdf" is run twice with the same file list, the same (empty)
    exclusion set and the same output path, by a reader and a writer
    that are functions. Both runs finish; the first leaves five pages at
    the output path, the second reads these five as its first source and
    leaves eight. *)
Lemma C9_second_run_reads_what_the_first_wrote :
  let job := MergeWorker.init ["a.pdf"; "b.pdf"] "a.pdf" 0%nat in
  let w := sample_world [] in
  let s1 := fst (MergeWorker.run job (MergeWorker.boot w)) in
  let s2 := fst (MergeWorker.run job (MergeWorker.boot (MergeWorker.env s1))) in
  set_at (MergeWorker.env s1) (MergeWorker.excluded_pages job)
  = set_at w (MergeWorker.excluded_pages job)
  ∧ last (MergeWorker.emitted s1) = Some finished
  ∧ last (MergeWorker.emitted s2) = Some finished
  ∧ contents (fs (MergeWorker.env s1)) !! "a.pdf" = Some [x01; x02; x03; x04; x05]
  ∧ contents (fs (MergeWorker.env s2)) !! "a.pdf"
    = Some [x01; x02; x03; x04; x05; x03; x04; x05]
  ∧ contents (fs (MergeWorker.env s2)) !! "a.pdf"
    ≠ contents (fs (MergeWorker.env s1)) !! "a.pdf".
Proof. intros job w s1 s2. split_and!; by_compute. Qed.

(** C9 (amended): when the output path is not one of the listed files,
    running the merge again and again, as often as one likes, with the
    file list, the exclusion set and the output path unchanged, gives
    every time the signals and the pages of the first run and leaves the
    world, and so the bytes at the output path, as the first run left
    them; after a run that finished these bytes are the serialization of
    the pages kept. And what a run emits and writes depends on the world
    only through the contents of the sources, the exclusion set and the
    way a write at the destination ends: in any other world that agrees
    on these the run emits the same signals and, when it finishes,
    leaves the same bytes at the output path. *)
Theorem C9_running_again_gives_the_same_bytes
    {page : Type} `{!PdfLibrary page} (job : MergeWorker.t) (w : world) (k : nat) :
  let s1 := fst (MergeWorker.run job (MergeWorker.boot w)) in
  let sk := fst (MergeWorker.run job (MergeWorker.boot (rerun job k w))) in
  MergeWorker.output job ∉ MergeWorker.files job →
  (1 ≤ k)%nat →
  MergeWorker.emitted sk = MergeWorker.emitted s1
  ∧ MergeWorker.writer sk = MergeWorker.writer s1
  ∧ MergeWorker.env sk = MergeWorker.env s1
  ∧ contents (fs (MergeWorker.env sk)) !! MergeWorker.output job
    = contents (fs (rerun job k w)) !! MergeWorker.output job
  ∧ (finished ∈ MergeWorker.emitted s1 →
     contents (fs (MergeWorker.env sk)) !! MergeWorker.output job
     = Some (write_pdf (MergeWorker.writer s1)))
  ∧ (∀ w',
       (∀ path, path ∈ MergeWorker.files job →
                contents (fs w) !! path = contents (fs w') !! path) →
       set_at w (MergeWorker.excluded_pages job)
       = set_at w' (MergeWorker.excluded_pages job) →
       write_failure (fs w) (MergeWorker.output job)
       = write_failure (fs w') (MergeWorker.output job) →
       let s' := fst (MergeWorker.run job (MergeWorker.boot w')) in
       MergeWorker.emitted s' = MergeWorker.emitted s1
       ∧ MergeWorker.writer s' = MergeWorker.writer s1
       ∧ (finished ∈ MergeWorker.emitted s1 →
          contents (fs (MergeWorker.env s')) !! MergeWorker.output job
          = contents (fs (MergeWorker.env s1)) !! MergeWorker.output job)).
Proof.
  intros s1 sk Hout Hk. subst s1 sk.
  destruct k as [|k]; [lia|]. rewrite (rerun_fixed job k w Hout).
  change (rerun job 1 w) with (MergeWorker.env (fst (MergeWorker.run job (MergeWorker.boot w)))).
  rewrite !run_spec. cbn [fst].
  rewrite (run_outcome_again job w Hout).
  assert (Hfinished : finished ∈ MergeWorker.emitted (run_outcome w job) →
            first_read_error w (MergeWorker.files job) = None
            ∧ write_failure (fs w) (MergeWorker.output job) = None).
  { unfold run_outcome. cbn [MergeWorker.emitted]. intros [Hin|Hin]%elem_of_app.
    { unfold reports_from in Hin. apply list_elem_of_fmap in Hin as (j & Hj & _). done. }
    apply list_elem_of_singleton in Hin. unfold last_signal in Hin.
    destruct (first_read_error w (MergeWorker.files job)); [done|].
    by destruct (write_failure (fs w) (MergeWorker.output job)). }
  assert (Hbytes : ∀ v, first_read_error v (MergeWorker.files job) = None →
            write_failure (fs v) (MergeWorker.output job) = None →
            contents (fs (MergeWorker.env (run_outcome v job))) !! MergeWorker.output job
            = Some (write_pdf (MergeWorker.writer (run_outcome v job)))).
  { intros v Hread Hwrite. unfold run_outcome. cbn [MergeWorker.env MergeWorker.writer].
    rewrite Hread. unfold written. unfold write_failure in Hwrite.
    case_bool_decide; [by destruct (breaks_after (fs v) !! MergeWorker.output job)|].
    cbn. by rewrite lookup_insert_eq. }
  split_and!; try done.
  - intros Hfin. destruct (Hfinished Hfin) as [Hread Hwrite]. by apply Hbytes.
  - intros w' Hfiles Hset Hfail. rewrite run_spec. cbn [fst].
    destruct (run_outcome_agree job w w' Hfiles Hset Hfail)
      as (Herr & _ & Hemitted & Hwriter & _).
    split_and!; [done|done|].
    intros Hfin. destruct (Hfinished Hfin) as [Hread Hwrite].
    rewrite (Hbytes w Hread Hwrite), (Hbytes w'); [by rewrite Hwriter| |];
      congruence.
Qed.

Lemma C9_running_again_gives_the_same_bytes_witness :
  let w := sample_world [1; 4; 6] in
  let s3 := fst (MergeWorker.run sample_job (MergeWorker.boot (rerun sample_job 2 w))) in
  last (MergeWorker.emitted s3) = Some finished
  ∧ contents (fs (MergeWorker.env s3)) !! "out.pdf" = Some [x02; x03; x05].
Proof.
  intros w s3.
  destruct (C9_running_again_gives_the_same_bytes sample_job w 2)
    as (Hsig & _ & _ & _ & Hbytes & _).
  - unfold sample_job; simpl. not_in_list.
  - lia.
  - assert (Hfin : finished ∈ MergeWorker.emitted
                       (fst (MergeWorker.run sample_job (MergeWorker.boot w)))).
    { apply (list_elem_of_lookup_2 _ 3%nat). by_compute. }
    split.
    + etransitivity; [exact (f_equal last Hsig)|]. by_compute.
    + etransitivity; [exact (Hbytes Hfin)|]. by_compute.
Defined.

(** C10: with an empty file list and a destination that can be written,
    [run] returns normally having emitted [finished] and nothing else,
    and the destination holds a document of zero pages; whether or not
    the destination can be written, no progress signal is emitted and no
    [ZeroDivisionError] is raised: the percentage, whose computation
    would raise it for a count of zero, is only computed inside the loop
    over the files. *)
Theorem C10_empty_list_merges_to_an_empty_document
    {page : Type} `{!PdfLibrary page} (job : MergeWorker.t) (w : world) :
  let s := fst (MergeWorker.run job (MergeWorker.boot w)) in
  MergeWorker.files job = [] →
  snd (MergeWorker.run job (MergeWorker.boot w)) = Ok tt
  ∧ progress_events (MergeWorker.emitted s) = []
  ∧ (error ZeroDivisionError ∉ MergeWorker.emitted s)
  ∧ (∀ i, percent_of i (MergeWorker.total_files job) = Raise ZeroDivisionError)
  ∧ (MergeWorker.output job ∉ unwritable (fs w) →
     MergeWorker.emitted s = [finished]
     ∧ MergeWorker.writer s = []
     ∧ contents (fs (MergeWorker.env s)) !! MergeWorker.output job = Some (write_pdf [])).
Proof.
  intros s Hfiles. subst s. rewrite run_spec. simpl fst. simpl snd.
  assert (Hemitted : MergeWorker.emitted (run_outcome w job) = [last_signal w job]).
  { unfold run_outcome. simpl. by rewrite Hfiles. }
  assert (Hlast : last_signal w job =
            match write_failure (fs w) (MergeWorker.output job) with
            | Some e => error e
            | None => finished
            end).
  { unfold last_signal. by rewrite Hfiles. }
  assert (Hfailure : ∀ e, write_failure (fs w) (MergeWorker.output job) = Some e →
            e ≠ ZeroDivisionError).
  { intros e. unfold write_failure. case_bool_decide; [|done].
    destruct (breaks_after (fs w) !! MergeWorker.output job); by intros [= <-]. }
  split_and!.
  - done.
  - rewrite Hemitted, Hlast. by destruct (write_failure (fs w) (MergeWorker.output job)).
  - rewrite Hemitted, Hlast. intros Hin%list_elem_of_singleton.
    destruct (write_failure (fs w) (MergeWorker.output job)) as [e|]; [|done].
    injection Hin as <-. by apply (Hfailure ZeroDivisionError).
  - intros i. unfold MergeWorker.total_files. by rewrite Hfiles.
  - intros Hout. rewrite write_failure_writable in Hlast by done.
    unfold run_outcome. simpl. rewrite Hlast, Hfiles. simpl.
    rewrite kept_from_nil, written_writable by done.
    split_and!; [done|done|]. simpl. by rewrite lookup_insert_eq.
Qed.

Lemma C10_empty_list_merges_to_an_empty_document_witness :
  let job := MergeWorker.init [] "out.pdf" 0%nat in
  let s := fst (MergeWorker.run job (MergeWorker.boot (sample_world [1]))) in
  MergeWorker.emitted s = [finished]
  ∧ contents (fs (MergeWorker.env s)) !! "out.pdf" = Some [].
Proof.
  intros job s.
  destruct (C10_empty_list_merges_to_an_empty_document job (sample_world [1]))
    as (_ & _ & _ & _ & Hdone).
  - reflexivity.
  - destruct Hdone as (Hsig & _ & Hfile); [by_compute|].
    split; [exact Hsig|exact Hfile].
Defined.

(** ** The thread, step by step *)

Section Steps.
Context {page : Type} `{!PdfLibrary page}.
Import MergeWorker.














(** Until it stops, a step leaves the world alone. *)
Lemma step_env (job : t) (s : state page) at_ :
  snd (step job (s, at_)) ≠ Stopped → env (fst (step job (s, at_))) = env s.
Proof.
  destruct at_ as [i [|pdf rest]|i rest [|entry pages]|]; simpl.
  - unfold guarded. by destruct ((save job ;;; emit finished)%py s) as [s' [[]|e]].
  - unfold open_reader, py_bind, py_get, py_lift.
    by destruct (read_pages (env s) pdf).
  - unfold guarded, report, py_bind, py_lift.
    destruct (percent_of i (total_files job)); simpl; done.
  - unfold guarded. pose proof (copy_pages_spec job [entry] s) as Hcopy.
    simpl in Hcopy. unfold py_bind in Hcopy at 1.
    destruct (copy_page job entry s) as [s' [[]|e]]; simpl; [|done].
    unfold py_ret in Hcopy. intros _. by injection Hcopy as ->.
  - done.
Qed.




Lemma stopped_or_not (at_ : pc page) : at_ = Stopped ∨ at_ ≠ Stopped.
Proof. destruct at_; [by right|by right|by left]. Qed.


End Steps.

(** ** The two threads *)

Section Handlers.
Context {page : Type} `{!PdfLibrary page}.
Import PdfMergerApp.

(** Of the handlers, only [apply_page_removal] writes to the world. *)
Lemma update_page_count_env g : env (fst (update_page_count g)) = env g.
Proof.
  rewrite update_page_count_spec.
  by destruct (sum_pages (env g) 0 (get_files (self g))).
Qed.

Lemma update_buttons_spec g :
  update_buttons g =
  ({| env := env g;
      self := set_buttons (bool_decide (2 ≤ length (list_widget (self g)))%nat) (self g) |},
   Ok tt).
Proof. done. Qed.

Lemma refresh_env g :
  env (fst ((update_page_count ;;; update_buttons)%py g)) = env g.
Proof.
  unfold py_bind. pose proof (update_page_count_env g) as Henv.
  destruct (update_page_count g) as [g' [[]|e]]; simpl in *; done.
Qed.

Lemma add_pdf_env path g : env (fst (add_pdf path g)) = env g.
Proof.
  unfold add_pdf. unfold py_bind at 1. unfold py_get at 1.
  unfold py_bind at 1. unfold py_lift at 1.
  destruct (count_pages (env g) path) as [pages|e]; [|done].
  unfold py_bind at 1. unfold on_self at 1. unfold py_modify at 1.
  by rewrite refresh_env.
Qed.

Lemma remove_selected_env rows g : env (fst (remove_selected rows g)) = env g.
Proof.
  unfold remove_selected. unfold py_bind at 1. unfold py_get at 1.
  unfold py_bind at 1. unfold on_self at 1. unfold py_modify at 1.
  by rewrite refresh_env.
Qed.

End Handlers.

Section Threads.
Context {page : Type} `{!PdfLibrary page}.
Import Session.


Lemma handle_frame (m : py PdfMergerApp.gui unit) (x : t page) :
  (∀ g, PdfMergerApp.env (fst (m g)) = PdfMergerApp.env g) →
  shared (handle m x) = shared x ∧ threads (handle m x) = threads x.
Proof.
  intros Henv. unfold handle.
  specialize (Henv {| PdfMergerApp.env := shared x; PdfMergerApp.self := window x |}).
  destruct (m _) as [g [[]|e]]; simpl in *; done.
Qed.

Lemma handle_threads (m : py PdfMergerApp.gui unit) (x : t page) :
  threads (handle m x) = threads x.
Proof. unfold handle. by destruct (m _) as [g [[]|e]]. Qed.

Lemma merge_pdfs_env output g :
  PdfMergerApp.env (fst (PdfMergerApp.merge_pdfs output g)) = PdfMergerApp.env g.
Proof. unfold PdfMergerApp.merge_pdfs, py_bind, py_get. by case_bool_decide. Qed.

(** A click on the enabled Merge button that comes back with a path
    starts one more thread, on the list of paths read off the widget,
    the chosen path, and the location of the window's own set. *)
Lemma click_merge_starts (x : t page) out :
  aborted x = false →
  PdfMergerApp.merge_btn_enabled (window x) = true → out ≠ "" →
  let job := MergeWorker.init (PdfMergerApp.get_files (window x)) out
                              (PdfMergerApp.excluded_pages (window x)) in
  threads (act x (ClickMerge out)) = threads x ++ [(job, MergeWorker.start job (shared x))]
  ∧ shared (act x (ClickMerge out)) = shared x
  ∧ aborted (act x (ClickMerge out)) = false.
Proof.
  intros Hrun Hbtn Hout job. unfold act. rewrite Hrun, Hbtn.
  rewrite bool_decide_eq_false_2 by done.
  unfold handle, PdfMergerApp.merge_pdfs, py_bind, py_get. simpl.
  rewrite bool_decide_eq_false_2 by done. simpl. done.
Qed.

(** What a click on the Merge button does to the threads and to the
    world, in every case. *)
Lemma click_merge_threads (x : t page) out :
  shared (act x (ClickMerge out)) = shared x
  ∧ (threads (act x (ClickMerge out)) = threads x
     ∨ ∃ job c, MergeWorker.output job = out
                ∧ threads (act x (ClickMerge out)) = threads x ++ [(job, c)]).
Proof.
  unfold act. destruct (aborted x) eqn:Hrun; [by split; [|left]|].
  destruct (PdfMergerApp.merge_btn_enabled (window x)) eqn:Hbtn; [|by split; [|left]].
  case_bool_decide as Hout.
  - destruct (handle_frame (PdfMergerApp.merge_pdfs out) x (merge_pdfs_env out)) as [-> ->].
    by split; [|left].
  - destruct (click_merge_starts x out Hrun Hbtn Hout) as (Hthreads & Hshared & _).
    unfold act in Hthreads, Hshared. rewrite Hrun, Hbtn in Hthreads, Hshared.
    rewrite bool_decide_eq_false_2 in Hthreads, Hshared by done.
    split; [done|]. right. eexists _, _. split; [|exact Hthreads]. done.
Qed.















End Threads.




(** * Further properties of the code *)

(** ** Item texts and [get_files] *)

Lemma prefix_cons a s1 b s2 :
  String.prefix (String a s1) (String b s2)
  = if ascii_dec a b then String.prefix s1 s2 else false.
Proof. done. Qed.

Lemma prefix_nil_l s : String.prefix "" s = true.
Proof. by destruct s. Qed.

Lemma append_cons a s t : String a s +:+ t = String a (s +:+ t).
Proof. done. Qed.

Lemma append_nil t : "" +:+ t = t.
Proof. done. Qed.

Lemma prefix_item_sep_append c p rest :
  String.prefix item_sep (String c (p +:+ item_sep +:+ rest))
  = String.prefix item_sep (String c p).
Proof.
  unfold item_sep.
  destruct p as [|c1 [|c2 [|c3 p]]];
    repeat first
      [ rewrite append_cons
      | rewrite append_nil
      | rewrite prefix_cons
      | match goal with
        | |- context [ascii_dec ?a ?b] => destruct (ascii_dec a b); try discriminate; subst
        end ];
    rewrite ?prefix_nil_l; reflexivity.
Qed.

Lemma before_unfold sep s :
  before sep s =
  if String.prefix sep s then EmptyString
  else match s with
       | EmptyString => EmptyString
       | String c rest => String c (before sep rest)
       end.
Proof. by destruct s. Qed.

Lemma prefix_item_sep_here rest : String.prefix item_sep (item_sep +:+ rest) = true.
Proof.
  unfold item_sep. rewrite !append_cons, append_nil, !prefix_cons.
  repeat (match goal with
          | |- context [ascii_dec ?a ?b] => destruct (ascii_dec a b); try done
          end).
  apply prefix_nil_l.
Qed.

Lemma before_append_item_sep path rest :
  before item_sep (path +:+ item_sep +:+ rest) = before item_sep path.
Proof.
  induction path as [|c p IH].
  - rewrite append_nil, (before_unfold _ (item_sep +:+ rest)), prefix_item_sep_here.
    rewrite before_unfold. by destruct (String.prefix item_sep "").
  - rewrite append_cons, (before_unfold _ (String c _)), (before_unfold _ (String c p)).
    by rewrite prefix_item_sep_append, IH.
Qed.

Lemma before_no_occurrence sep s : occurs sep s = false → before sep s = s.
Proof.
  induction s as [|c s IH].
  - rewrite before_unfold. by destruct (String.prefix sep "").
  - change (occurs sep (String c s))
      with (String.prefix sep (String c s) || occurs sep s).
    intros [Hhere Hlater]%orb_false_iff.
    rewrite before_unfold, Hhere. by rewrite IH.
Qed.

(** X1: the path that [get_files] reads off the item text made by
    [add_pdf] is the path cut at its first "   [": the path itself when
    it has no such run of characters, and a proper start of it
    otherwise. *)
Theorem X1_get_files_reads_back_the_path (path : string) (pages : Z) :
  before "   [" (PdfMergerApp.item_text path pages) = before "   [" path
  ∧ (occurs "   [" path = false →
     before "   [" (PdfMergerApp.item_text path pages) = path)
  ∧ (∀ head tail, path = head +:+ "   [" +:+ tail →
     before "   [" (PdfMergerApp.item_text path pages) = before "   [" head).
Proof.
  assert (Hcut : before "   [" (PdfMergerApp.item_text path pages) = before "   [" path).
  { unfold PdfMergerApp.item_text.
    apply (before_append_item_sep path (pretty pages +:+ " pages]")). }
  split_and!.
  - done.
  - intros Hno. rewrite Hcut. by apply before_no_occurrence.
  - intros head tail ->. rewrite Hcut. apply (before_append_item_sep head tail).
Qed.

Lemma X1_get_files_reads_back_the_path_witness :
  before "   [" (PdfMergerApp.item_text "/docs/report [final].pdf" 12)
  = "/docs/report [final].pdf"
  ∧ before "   [" (PdfMergerApp.item_text "/docs/a   [b].pdf" 3) = "/docs/a".
Proof.
  destruct (X1_get_files_reads_back_the_path "/docs/report [final].pdf" 12) as (_ & Hsame & _).
  destruct (X1_get_files_reads_back_the_path "/docs/a   [b].pdf" 3) as (_ & _ & Hcut).
  split.
  - apply Hsame. reflexivity.
  - apply (Hcut "/docs/a" "b].pdf"). reflexivity.
Defined.

(** ** What the exclusion set can hold *)

Lemma digit_value_nonneg c : is_digit c = true → (0 ≤ digit_value c)%Z.
Proof.
  unfold is_digit, digit_value. intros [Hlo _]%andb_true_iff.
  apply N.leb_le in Hlo. lia.
Qed.

Lemma scan_digits_nonneg s acc prev_us n rest :
  (0 ≤ acc)%Z → scan_digits acc prev_us s = Some (n, rest) → (0 ≤ n)%Z.
Proof.
  revert acc prev_us. induction s as [|c s IH]; intros acc prev_us Hacc; simpl.
  - destruct prev_us; [done|]. by intros [= <- _].
  - destruct (is_digit c) eqn:Hdigit.
    + apply IH. pose proof (digit_value_nonneg c Hdigit). lia.
    + destruct (Ascii.eqb c "_").
      * destruct prev_us; [done|]. by apply IH.
      * destruct prev_us; [done|]. by intros [= <- _].
Qed.

Lemma contains_skip_spaces c s : contains c s = false → contains c (skip_spaces s) = false.
Proof.
  induction s as [|d s IH]; simpl; [done|].
  intros [Hd Hs]%orb_false_iff. destruct (is_space d); [by apply IH|].
  simpl. by rewrite Hd, Hs.
Qed.

(** A string without a hyphen never converts to a negative integer. *)
Lemma int_of_str_nonneg s n :
  contains "-" s = false → int_of_str s = Some n → (0 ≤ n)%Z.
Proof.
  intros Hno%contains_skip_spaces. unfold int_of_str.
  assert (Hscan : ∀ t, match scan_number t with
                       | Some (m, rest) =>
                           if (int_max_str_digits <? count_digits t)%N then None
                           else match skip_spaces rest with
                                | EmptyString => Some m
                                | String _ _ => None
                                end
                       | None => None
                       end = Some n → (0 ≤ n)%Z).
  { intros t. unfold scan_number. destruct t as [|c t]; [done|].
    destruct (is_digit c) eqn:Hdigit; [|done].
    destruct (scan_digits (digit_value c) false t) as [[m rest]|] eqn:Hm; [|done].
    destruct (int_max_str_digits <? count_digits (String c t))%N; [done|].
    destruct (skip_spaces rest); [|done]. intros [= <-].
    eapply scan_digits_nonneg; [|done]. by apply digit_value_nonneg. }
  destruct (skip_spaces s) as [|c t] eqn:Hs; [apply (Hscan "")|].
  simpl in Hno. apply orb_false_iff in Hno as [Hc Ht].
  destruct (Ascii.eqb_spec c "+") as [->|Hplus]; [apply (Hscan t)|].
  destruct (Ascii.eqb_spec c "-") as [->|Hminus]; [done|].
  assert (Hother : match c with
                   | "+"%char => (false, t)
                   | "-"%char => (true, t)
                   | _ => (false, String c t)
                   end = (false, String c t)).
  { destruct c as [[] [] [] [] [] [] [] []]; try done. }
  rewrite Hother. apply (Hscan (String c t)).
Qed.

Lemma split_no_sep sep s piece : piece ∈ split sep s → contains sep piece = false.
Proof.
  revert piece. induction s as [|c s IH]; intros piece; simpl.
  - intros ->%list_elem_of_singleton. done.
  - destruct (Ascii.eqb c sep) eqn:Hc.
    + intros [->|Hin]%elem_of_cons; [done|by apply IH].
    + destruct (split sep s) as [|first pieces] eqn:Hsplit.
      * intros ->%list_elem_of_singleton. simpl. by rewrite Hc.
      * intros [->|Hin]%elem_of_cons.
        -- simpl. rewrite Hc. simpl. apply IH. left.
        -- apply IH. by right.
Qed.

Lemma read_token_nonneg part t z :
  read_token part = Some t → token_has t z = true → (0 ≤ z)%Z.
Proof.
  unfold read_token. destruct (contains "-" part) eqn:Hhyphen.
  - destruct (split "-" part) as [|x [|y [|? ?]]] eqn:Hsplit; try done.
    destruct (int_of_str x) as [a|] eqn:Ha; [|done].
    destruct (int_of_str y) as [b|] eqn:Hb; [|done].
    intros [= <-]. simpl. intros [Hlo _]%andb_true_iff. apply Z.leb_le in Hlo.
    assert (0 ≤ a)%Z; [|lia].
    apply (int_of_str_nonneg x); [|done].
    apply (split_no_sep "-" part). rewrite Hsplit. left.
  - destruct (int_of_str part) as [n|] eqn:Hn; [|done].
    intros [= <-]. simpl. intros ->%Z.eqb_eq. by apply (int_of_str_nonneg part).
Qed.

Lemma pages_of_nonneg parts z : z ∈ pages_of parts → (0 ≤ z)%Z.
Proof.
  intros (part & t & _ & Ht & Hz)%pages_of_union. by eapply read_token_nonneg.
Qed.

Lemma elem_of_readable_prefix part parts : part ∈ readable_prefix parts → part ∈ parts.
Proof.
  induction parts as [|p rest IH]; simpl; [done|].
  destruct (read_token p); [|by intros ?%elem_of_nil].
  intros [->|Hin]%elem_of_cons; [left|right; by apply IH].
Qed.

Section ParserFacts.
Context {page : Type} `{!PdfLibrary page}.
Import PdfMergerApp.

(** The set that [apply_page_removal] leaves, whatever its outcome. *)
Lemma apply_page_removal_excluded g :
  let text := remove_spaces (page_input (self g)) in
  excluded_of (fst (apply_page_removal g))
  = if bool_decide (text = "") then ∅
    else pages_of (readable_prefix (split "," text)).
Proof.
  intros text. rewrite apply_page_removal_spec. fold text.
  case_bool_decide as Htext.
  - rewrite update_page_count_spec. simpl. rewrite sum_pages_update_set.
    destruct (sum_pages _ _ _); simpl; apply excluded_of_with_excluded.
  - cbv zeta. case_bool_decide as Hall.
    + rewrite update_page_count_spec. simpl. rewrite sum_pages_update_set.
      destruct (sum_pages _ _ _); simpl; apply excluded_of_with_excluded.
    + simpl. apply excluded_of_with_excluded.
Qed.

End ParserFacts.

(** X2: whatever expression is applied and however the call ends, no
    negative number is in the exclusion set afterwards: a hyphen always
    makes a token a range, so a minus sign never reaches [int]. *)
Theorem X2_excluded_pages_are_never_negative
    {page : Type} `{!PdfLibrary page} (g : PdfMergerApp.gui) (z : Z) :
  z ∈ excluded_of (fst (PdfMergerApp.apply_page_removal g)) → (0 ≤ z)%Z.
Proof.
  rewrite apply_page_removal_excluded. case_bool_decide; [by intros ?%elem_of_empty|].
  apply pages_of_nonneg.
Qed.

Lemma X2_excluded_pages_are_never_negative_witness :
  let g' := fst (PdfMergerApp.apply_page_removal (sample_gui "0-2,+5,-7" [-3])) in
  excluded_of (sample_gui "0-2,+5,-7" [-3]) = {[ -3 ]}
  ∧ excluded_of g' = {[ 0; 1; 2; 5 ]}
  ∧ (0 ≤ 5)%Z.
Proof.
  intros g'. split_and!; [by_compute|by_compute|].
  apply (X2_excluded_pages_are_never_negative (sample_gui "0-2,+5,-7" [-3]) 5).
  by_compute.
Defined.

(** ** The buttons and the documents a merge starts with *)

Section Buttons.
Context {page : Type} `{!PdfLibrary page}.
Import PdfMergerApp.

Lemma update_page_count_widgets g :
  let a := self (fst (update_page_count g)) in
  list_widget a = list_widget (self g)
  ∧ merge_btn_enabled a = merge_btn_enabled (self g)
  ∧ preview_btn_enabled a = preview_btn_enabled (self g)
  ∧ worker a = worker (self g)
  ∧ excluded_pages a = excluded_pages (self g).
Proof.
  rewrite update_page_count_spec.
  by destruct (sum_pages (env g) 0 (get_files (self g))).
Qed.

(** Applying a page expression leaves the list, the buttons and the
    stored worker as they are. *)
Lemma apply_page_removal_widgets g :
  let a := self (fst (apply_page_removal g)) in
  list_widget a = list_widget (self g)
  ∧ merge_btn_enabled a = merge_btn_enabled (self g)
  ∧ preview_btn_enabled a = preview_btn_enabled (self g)
  ∧ worker a = worker (self g)
  ∧ excluded_pages a = excluded_pages (self g).
Proof.
  rewrite apply_page_removal_spec. cbv zeta.
  case_bool_decide; [apply (update_page_count_widgets (with_excluded ∅ g))|].
  case_bool_decide; [|done].
  pose proof (update_page_count_widgets
                (with_excluded (pages_of (readable_prefix
                   (split "," (remove_spaces (page_input (self g)))))) g)) as Hsame.
  by destruct (update_page_count _) as [g2 [[]|e]].
Qed.

(** After the two refreshing calls that end [add_pdf] and
    [remove_selected] have both returned, the buttons match the list. *)
Lemma refresh_buttons g g' :
  (update_page_count ;;; update_buttons)%py g = (g', Ok tt) →
  buttons_in_step (self g') ∧ worker (self g') = worker (self g)
  ∧ list_widget (self g') = list_widget (self g).
Proof.
  unfold py_bind. pose proof (update_page_count_widgets g) as (Hlist & _ & _ & Hworker & _).
  destruct (update_page_count g) as [g1 [[]|e]]; [|done].
  rewrite update_buttons_spec. intros [= <-]. simpl in *.
  unfold buttons_in_step. simpl. by rewrite Hlist.
Qed.

Lemma add_pdf_buttons path g g' :
  add_pdf path g = (g', Ok tt) →
  buttons_in_step (self g') ∧ worker (self g') = worker (self g).
Proof.
  unfold add_pdf. unfold py_bind at 1. unfold py_get at 1.
  unfold py_bind at 1. unfold py_lift at 1.
  destruct (count_pages (env g) path) as [pages|e]; [|done].
  unfold py_bind at 1. unfold on_self at 1. unfold py_modify at 1.
  intros (Hbuttons & Hworker & _)%refresh_buttons. done.
Qed.

Lemma remove_selected_buttons rows g g' :
  remove_selected rows g = (g', Ok tt) →
  buttons_in_step (self g') ∧ worker (self g') = worker (self g).
Proof.
  unfold remove_selected. unfold py_bind at 1. unfold py_get at 1.
  unfold py_bind at 1. unfold on_self at 1. unfold py_modify at 1.
  intros (Hbuttons & Hworker & _)%refresh_buttons. done.
Qed.

End Buttons.

Section StartedJobs.
Context {page : Type} `{!PdfLibrary page}.
Import Session.

Lemma well_started_open_window disk : well_started (open_window (page := page) disk).
Proof. unfold well_started. split; [done|]. intros k job c Hthread. done. Qed.

Lemma handle_window (m : py PdfMergerApp.gui unit) (x : t page) :
  let g := {| PdfMergerApp.env := shared x; PdfMergerApp.self := window x |} in
  window (handle m x) = PdfMergerApp.self (fst (m g))
  ∧ aborted (handle m x) = match snd (m g) with Ok _ => false | Raise _ => true end.
Proof. unfold handle. by destruct (m _) as [g' [[]|e]]. Qed.

Lemma act_well_started (x : t page) a : well_started x → well_started (act x a).
Proof.
  intros (Hbuttons & Hjob). unfold well_started, act.
  destruct (aborted x) eqn:Hrun; [split; [congruence|done]|].
  specialize (Hbuttons eq_refl).
  destruct a as [k|text| |path|rows|out].
  - (* Tick *)
    unfold tick. destruct (threads x !! k) as [[job [s at_]]|] eqn:Hthread.
    2: { split; eauto. }
    destruct (MergeWorker.step job (with_env (shared x) s, at_)) as [s' at']. simpl.
    split; [done|].
    intros i job' c Hi. destruct (decide (k = i)) as [->|Hne].
    + rewrite list_lookup_insert_eq in Hi by (by eapply lookup_lt_Some).
      injection Hi as <- _. by eapply Hjob.
    + rewrite list_lookup_insert_ne in Hi by done. by eapply Hjob.
  - (* TypePages *)
    split; done.
  - (* ClickApply *)
    destruct (handle_window PdfMergerApp.apply_page_removal x) as [Hwin Hab].
    pose proof (apply_page_removal_widgets
                  {| PdfMergerApp.env := shared x; PdfMergerApp.self := window x |})
      as (Hlist & Hmerge & Hpreview & Hw & _).
    simpl in *. rewrite handle_threads.
    split; [|done].
    intros _. rewrite Hwin. destruct Hbuttons as [Hb1 Hb2].
    unfold buttons_in_step. by rewrite Hlist, Hmerge, Hpreview.
  - (* AddPdf *)
    destruct (handle_window (PdfMergerApp.add_pdf path) x) as [Hwin Hab].
    rewrite handle_threads.
    destruct (PdfMergerApp.add_pdf path _) as [g' [[]|e]] eqn:Hadd; simpl in *.
    + apply add_pdf_buttons in Hadd as [Hb Hw]. split; [by rewrite Hwin|done].
    + split; [by rewrite Hab|done].
  - (* RemoveSelected *)
    destruct (handle_window (PdfMergerApp.remove_selected rows) x) as [Hwin Hab].
    rewrite handle_threads.
    destruct (PdfMergerApp.remove_selected rows _) as [g' [[]|e]] eqn:Hrem; simpl in *.
    + apply remove_selected_buttons in Hrem as [Hb Hw]. split; [by rewrite Hwin|done].
    + split; [by rewrite Hab|done].
  - (* ClickMerge *)
    destruct (PdfMergerApp.merge_btn_enabled (window x)) eqn:Hbtn; [|split; eauto].
    case_bool_decide as Hout.
    + rewrite handle_threads.
      destruct (handle_window (PdfMergerApp.merge_pdfs out) x) as [Hwin _].
      split; [|done]. intros _. rewrite Hwin.
      unfold PdfMergerApp.merge_pdfs, py_bind, py_get. by rewrite bool_decide_eq_true_2.
    + destruct (click_merge_starts x out Hrun Hbtn Hout) as (Hthreads & _ & Halive).
      unfold act in Hthreads, Halive. rewrite Hrun, Hbtn in Hthreads, Halive.
      rewrite bool_decide_eq_false_2 in Hthreads, Halive by done.
      split.
      * intros _. unfold start_worker, handle, PdfMergerApp.merge_pdfs, py_bind, py_get. simpl.
        rewrite bool_decide_eq_false_2 by done. simpl. done.
      * intros i job c. rewrite Hthreads. intros Hlook.
        apply lookup_app_Some in Hlook as [Hold|[_ Hnew]]; [by eapply Hjob|].
        apply list_lookup_singleton_Some in Hnew as [_ [= <- _]]. simpl.
        unfold PdfMergerApp.get_files.
        rewrite length_fmap. destruct Hbuttons as [Hb _]. rewrite Hbtn in Hb.
        symmetry in Hb. by apply bool_decide_eq_true in Hb.
Qed.

Lemma exec_well_started schedule (x : t page) : well_started x → well_started (exec schedule x).
Proof.
  revert x. induction schedule as [|a schedule IH]; intros x Hx; simpl; [done|].
  apply IH. by apply act_well_started.
Qed.

End StartedJobs.

(** X3: whatever the user does from the moment the window opens, while
    the application is alive the Merge and Preview buttons are enabled
    exactly when at least two documents are listed, and every worker
    thread that is ever started, however many there are, is started on
    two files or more, so the division by the number of files in [run]
    never divides by zero. *)
Theorem X3_merge_starts_with_two_documents_or_more
    {page : Type} `{!PdfLibrary page} (disk : filesystem) (schedule : list Session.action) :
  let x := Session.exec schedule (Session.open_window (page := page) disk) in
  (Session.aborted x = false →
   PdfMergerApp.merge_btn_enabled (Session.window x)
   = bool_decide (2 ≤ length (PdfMergerApp.list_widget (Session.window x)))%nat
   ∧ PdfMergerApp.preview_btn_enabled (Session.window x)
     = PdfMergerApp.merge_btn_enabled (Session.window x))
  ∧ (∀ k job c, Session.threads x !! k = Some (job, c) →
       (2 ≤ MergeWorker.total_files job)%Z
       ∧ ∀ i, ∃ p, percent_of i (MergeWorker.total_files job) = Ok p).
Proof.
  intros x.
  destruct (exec_well_started schedule _ (well_started_open_window disk))
    as (Hbuttons & Hjob).
  split; [exact Hbuttons|].
  intros k job c Hthread. specialize (Hjob k job c Hthread).
  unfold MergeWorker.total_files. split; [lia|].
  intros i. eexists. apply percent_of_value. lia.
Qed.

Lemma X3_merge_starts_with_two_documents_or_more_witness :
  let x := Session.exec [Session.AddPdf "a.pdf"; Session.ClickMerge "early.pdf";
                         Session.AddPdf "b.pdf"; Session.ClickMerge "out.pdf";
                         Session.Tick 0; Session.ClickMerge ""; Session.ClickMerge "out2.pdf"]
                        (Session.open_window sample_disk) in
  ∃ job c, length (Session.threads x) = 2%nat
           ∧ Session.threads x !! 1%nat = Some (job, c)
           ∧ MergeWorker.output job = "out2.pdf"
           ∧ (2 ≤ MergeWorker.total_files job)%Z.
Proof.
  intros x.
  destruct (X3_merge_starts_with_two_documents_or_more sample_disk
              [Session.AddPdf "a.pdf"; Session.ClickMerge "early.pdf";
               Session.AddPdf "b.pdf"; Session.ClickMerge "out.pdf";
               Session.Tick 0; Session.ClickMerge ""; Session.ClickMerge "out2.pdf"])
    as [_ Hjob].
  eexists. eexists. split_and!.
  2: { vm_compute. reflexivity. }
  - by_compute.
  - by_compute.
  - eapply (Hjob 1%nat). vm_compute. reflexivity.
Defined.

(** ** The expression decides the set *)

Section AppliedSet.
Context {page : Type} `{!PdfLibrary page}.
Import PdfMergerApp.

Lemma update_page_count_page_input g :
  page_input (self (fst (update_page_count g))) = page_input (self g).
Proof.
  rewrite update_page_count_spec.
  by destruct (sum_pages (env g) 0 (get_files (self g))).
Qed.

Lemma apply_page_removal_page_input g :
  page_input (self (fst (apply_page_removal g))) = page_input (self g).
Proof.
  rewrite apply_page_removal_spec. cbv zeta.
  case_bool_decide; [apply (update_page_count_page_input (with_excluded ∅ g))|].
  case_bool_decide; [|done].
  pose proof (update_page_count_page_input
                (with_excluded (pages_of (readable_prefix
                   (split "," (remove_spaces (page_input (self g)))))) g)) as Hsame.
  by destruct (update_page_count _) as [g2 [[]|e]].
Qed.

End AppliedSet.

(** X4: the exclusion set after Apply is decided by the text of the page
    field alone: two windows with the same text end with the same set,
    whatever their sets held before and whatever documents they list,
    and pressing Apply a second time changes nothing. *)
Theorem X4_applied_set_depends_only_on_the_expression
    {page : Type} `{!PdfLibrary page} (g h : PdfMergerApp.gui) :
  let g' := fst (PdfMergerApp.apply_page_removal g) in
  (PdfMergerApp.page_input (PdfMergerApp.self g)
   = PdfMergerApp.page_input (PdfMergerApp.self h) →
   excluded_of g' = excluded_of (fst (PdfMergerApp.apply_page_removal h)))
  ∧ excluded_of (fst (PdfMergerApp.apply_page_removal g')) = excluded_of g'.
Proof.
  intros g'. subst g'. split.
  - intros Htext. rewrite !apply_page_removal_excluded. by rewrite Htext.
  - rewrite (apply_page_removal_excluded (fst (PdfMergerApp.apply_page_removal g))).
    rewrite apply_page_removal_page_input. symmetry. apply apply_page_removal_excluded.
Qed.

Lemma X4_applied_set_depends_only_on_the_expression_witness :
  let g := sample_gui "1-3,9" [7; 8] in
  let h := {| PdfMergerApp.env := sample_world [100];
              PdfMergerApp.self := PdfMergerApp.set_page_input "1-3,9" (PdfMergerApp.init 0%nat) |} in
  excluded_of (fst (PdfMergerApp.apply_page_removal g))
  = excluded_of (fst (PdfMergerApp.apply_page_removal h)).
Proof.
  intros g h.
  destruct (X4_applied_set_depends_only_on_the_expression g h) as [Hsame _].
  apply Hsame. reflexivity.
Defined.

(** ** What a run leaves alone *)

(** X5: a run writes to no file but its destination and changes
    neither a set object nor what can be written where. When it fails
    before the destination is opened, because a source cannot be read or
    because the system refuses to open the destination, it leaves the
    world exactly as it found it. When the write breaks off after the
    destination has been opened, what was at the destination is gone and
    the file holds the bytes written up to the break; the exception is
    emitted as the error. *)
Theorem X5_run_touches_only_the_destination
    {page : Type} `{!PdfLibrary page} (job : MergeWorker.t) (w : world) :
  let s := fst (MergeWorker.run job (MergeWorker.boot w)) in
  let out := MergeWorker.output job in
  sets (MergeWorker.env s) = sets w
  ∧ unwritable (fs (MergeWorker.env s)) = unwritable (fs w)
  ∧ breaks_after (fs (MergeWorker.env s)) = breaks_after (fs w)
  ∧ (∀ path, path ≠ out →
       contents (fs (MergeWorker.env s)) !! path = contents (fs w) !! path)
  ∧ (∀ e, first_read_error w (MergeWorker.files job) = Some e →
       MergeWorker.env s = w ∧ last (MergeWorker.emitted s) = Some (error e))
  ∧ (first_read_error w (MergeWorker.files job) = None → out ∈ unwritable (fs w) →
       match breaks_after (fs w) !! out with
       | None =>
           MergeWorker.env s = w
           ∧ last (MergeWorker.emitted s) = Some (error (PermissionError out))
       | Some n =>
           contents (fs (MergeWorker.env s)) !! out
           = Some (take n (write_pdf (MergeWorker.writer s)))
           ∧ last (MergeWorker.emitted s) = Some (error (OSError out))
       end).
Proof.
  intros s out. subst s out. rewrite run_spec. cbn [fst]. unfold run_outcome.
  cbn [MergeWorker.env MergeWorker.emitted MergeWorker.writer]. rewrite last_snoc.
  set (data := write_pdf _).
  destruct (written_frame (MergeWorker.output job) data w)
    as (Hsets & Hperm & Hbreaks & Hothers).
  unfold last_signal.
  destruct (first_read_error w (MergeWorker.files job)) as [e|].
  - split_and!; try done. by intros e' [= <-].
  - split_and!; try done. intros _ Hout.
    unfold written, write_failure. rewrite !bool_decide_eq_true_2 by done.
    destruct (breaks_after (fs w) !! MergeWorker.output job) as [n|]; [|done].
    cbn. by rewrite lookup_insert_eq.
Qed.

Lemma X5_run_touches_only_the_destination_witness :
  let s := fst (MergeWorker.run sample_job (MergeWorker.boot (sample_world [2]))) in
  let w := with_broken_write "out.pdf" 2 (store_file "out.pdf" [x09; x09; x09] (sample_world [2])) in
  let s' := fst (MergeWorker.run sample_job (MergeWorker.boot w)) in
  contents (fs (MergeWorker.env s)) !! "a.pdf" = Some [x01; x02]
  ∧ contents (fs (MergeWorker.env s)) !! "out.pdf" = Some [x01; x03; x04; x05; x06]
  ∧ contents (fs (MergeWorker.env s')) !! "out.pdf" = Some [x01; x03]
  ∧ last (MergeWorker.emitted s') = Some (error (OSError "out.pdf")).
Proof.
  intros s w s'.
  destruct (X5_run_touches_only_the_destination sample_job (sample_world [2]))
    as (_ & _ & _ & Hothers & _).
  destruct (X5_run_touches_only_the_destination sample_job w)
    as (_ & _ & _ & _ & _ & Hbroken).
  split_and!.
  - etransitivity; [apply Hothers; by_compute|]. by_compute.
  - by_compute.
  - by_compute.
  - by_compute.
Defined.

(** X6: when the destination is not one of the sources, running the
    same job again on the world that the first run left gives the same
    signals and the same pages and leaves the world as the first run
    left it. *)
Theorem X6_running_again_changes_nothing
    {page : Type} `{!PdfLibrary page} (job : MergeWorker.t) (w : world) :
  let s1 := fst (MergeWorker.run job (MergeWorker.boot w)) in
  let s2 := fst (MergeWorker.run job (MergeWorker.boot (MergeWorker.env s1))) in
  MergeWorker.output job ∉ MergeWorker.files job →
  MergeWorker.emitted s2 = MergeWorker.emitted s1
  ∧ MergeWorker.writer s2 = MergeWorker.writer s1
  ∧ MergeWorker.env s2 = MergeWorker.env s1.
Proof.
  intros s1 s2 Hout. subst s1 s2. rewrite (run_spec job w). cbn [fst].
  rewrite (run_spec job (MergeWorker.env (run_outcome w job))). cbn [fst].
  by rewrite run_outcome_again.
Qed.

Lemma X6_running_again_changes_nothing_witness :
  let s1 := fst (MergeWorker.run sample_job (MergeWorker.boot (sample_world [1; 4; 6]))) in
  let s2 := fst (MergeWorker.run sample_job (MergeWorker.boot (MergeWorker.env s1))) in
  MergeWorker.emitted s2 = MergeWorker.emitted s1
  ∧ contents (fs (MergeWorker.env s2)) !! "out.pdf" = Some [x02; x03; x05].
Proof.
  intros s1 s2.
  destruct (X6_running_again_changes_nothing sample_job (sample_world [1; 4; 6]))
    as (Hsig & _ & Henv).
  - unfold sample_job; simpl. not_in_list.
  - split; [exact Hsig|]. fold s1 s2 in Henv. rewrite Henv. by_compute.
Defined.

(** ** Page numbers that name no page, and how many pages are written *)

Lemma kept_from_agree {A} (E E' : gset Z) c (pages : list A) :
  (∀ z, (c ≤ z < c + Z.of_nat (length pages))%Z → (z ∈ E ↔ z ∈ E')) →
  kept_from E c pages = kept_from E' c pages.
Proof.
  revert c. induction pages as [|p pages IH]; intros c Hagree; [done|].
  rewrite !kept_from_cons. f_equal.
  - assert (Hc : c ∈ E ↔ c ∈ E') by (apply Hagree; simpl; lia).
    by rewrite (bool_decide_ext _ _ Hc).
  - apply IH. intros z Hz. apply Hagree. simpl. lia.
Qed.

Lemma kept_from_count {A} (E : gset Z) c (pages : list A) :
  (length (kept_from E c pages) + excluded_within E c (length pages) = length pages)%nat.
Proof.
  unfold excluded_within. revert c. induction pages as [|p pages IH]; intros c; [done|].
  rewrite kept_from_cons, length_app. cbn [length].
  rewrite seqZ_cons by lia. rewrite filter_cons.
  replace (Z.pred (Z.of_nat (S (length pages)))) with (Z.of_nat (length pages)) by lia.
  specialize (IH (c + 1)%Z). replace (Z.succ c) with (c + 1)%Z by lia.
  destruct (decide (c ∈ E)) as [Hin|Hout].
  - rewrite bool_decide_eq_true_2 by done. simpl. lia.
  - rewrite bool_decide_eq_false_2 by done. simpl. lia.
Qed.

Lemma excluded_within_le (E : gset Z) c len : (excluded_within E c len ≤ size E)%nat.
Proof.
  unfold excluded_within.
  set (l := filter (λ z, z ∈ E) (seqZ c (Z.of_nat len))).
  assert (Hnodup : NoDup l) by (apply NoDup_filter, NoDup_seqZ).
  rewrite <- (size_list_to_set (C := gset Z) l Hnodup).
  apply subseteq_size. intros z Hz. apply elem_of_list_to_set in Hz.
  by apply list_elem_of_filter in Hz as [Hz _].
Qed.

Lemma excluded_within_all (E : gset Z) c len :
  (∀ z, z ∈ E → (c ≤ z < c + Z.of_nat len)%Z) → excluded_within E c len = size E.
Proof.
  intros Hrange. unfold excluded_within.
  set (l := filter (λ z, z ∈ E) (seqZ c (Z.of_nat len))).
  assert (Hnodup : NoDup l) by (apply NoDup_filter, NoDup_seqZ).
  rewrite <- (size_list_to_set (C := gset Z) l Hnodup). f_equal.
  apply set_eq. intros z. rewrite elem_of_list_to_set. unfold l.
  rewrite list_elem_of_filter. split; [by intros [? _]|].
  intros Hz. split; [done|]. apply list_elem_of_lookup.
  exists (Z.to_nat (z - c)). apply lookup_seqZ. specialize (Hrange z Hz). lia.
Qed.

(** X7: page numbers that name no page of the sources are ignored
    without notice: two exclusion sets that agree on the numbers from 1
    to the total page count make a run write the same pages, emit the
    same signals and leave the same bytes at the destination. *)
Theorem X7_numbers_outside_the_sources_are_ignored
    {page : Type} `{!PdfLibrary page} (job : MergeWorker.t) (w : world) (E' : gset Z) :
  let l := MergeWorker.excluded_pages job in
  let total := Z.of_nat (length (pages_fetched w (MergeWorker.files job))) in
  let s := fst (MergeWorker.run job (MergeWorker.boot w)) in
  let s' := fst (MergeWorker.run job (MergeWorker.boot (update_set l (λ _, E') w))) in
  (∀ z, (1 ≤ z ≤ total)%Z → (z ∈ set_at w l ↔ z ∈ E')) →
  MergeWorker.writer s' = MergeWorker.writer s
  ∧ MergeWorker.emitted s' = MergeWorker.emitted s
  ∧ contents (fs (MergeWorker.env s')) !! MergeWorker.output job
    = contents (fs (MergeWorker.env s)) !! MergeWorker.output job.
Proof.
  intros l total s s' Hagree. subst s s'. rewrite !run_spec. cbn [fst].
  set (w' := update_set l (λ _, E') w).
  destruct (read_agree w' w (MergeWorker.files job)) as (Herr & Hpre & Hpages); [done|].
  assert (Hlast : last_signal w' job = last_signal w job).
  { unfold last_signal. by rewrite Herr. }
  assert (Hkept : kept_from (set_at w' l) 1 (pages_fetched w (MergeWorker.files job))
                  = kept_from (set_at w l) 1 (pages_fetched w (MergeWorker.files job))).
  { unfold w'. rewrite set_at_update_set. symmetry. apply kept_from_agree.
    intros z Hz. apply Hagree. unfold total. lia. }
  unfold run_outcome. cbn [MergeWorker.env MergeWorker.writer MergeWorker.emitted].
  fold l. rewrite Hlast, Hpre, Hpages, Hkept, Herr. split_and!; [done|done|].
  destruct (first_read_error w (MergeWorker.files job)); [done|].
  unfold written. change (fs w') with (fs w).
  case_bool_decide; [by destruct (breaks_after (fs w) !! MergeWorker.output job)|done].
Qed.

Lemma X7_numbers_outside_the_sources_are_ignored_witness :
  let s := fst (MergeWorker.run sample_job (MergeWorker.boot (sample_world [2]))) in
  let s' := fst (MergeWorker.run sample_job (MergeWorker.boot (sample_world [0; 2; 7; 40]))) in
  MergeWorker.writer s' = MergeWorker.writer s.
Proof.
  intros s s'.
  destruct (X7_numbers_outside_the_sources_are_ignored sample_job (sample_world [2])
              {[ 0; 2; 7; 40 ]}) as (Hwriter & _).
  - intros z Hz. change (set_at (sample_world [2]) (MergeWorker.excluded_pages sample_job))
      with (list_to_set (C := gset Z) [2]).
    assert (Htotal : Z.of_nat (length (pages_fetched (sample_world [2])
                                         (MergeWorker.files sample_job))) = 6%Z) by by_compute.
    rewrite Htotal in Hz. set_unfold. lia.
  - etransitivity; [|exact Hwriter]. by_compute.
Defined.

Section PageCount.
Context {page : Type} `{!PdfLibrary page}.
Import PdfMergerApp.

Lemma sum_pages_readable (w : world) paths (docs : list (list page)) total :
  all_readable w paths docs →
  sum_pages w total paths = Ok (total + Z.of_nat (length (concat docs)))%Z.
Proof.
  intros Hread. revert total.
  induction Hread as [|path doc paths docs Hpath _ IH]; intros total; simpl.
  - f_equal. lia.
  - unfold count_pages. rewrite Hpath, IH, length_fmap, length_app. f_equal. lia.
Qed.

End PageCount.

(** X8: with every listed document readable, [update_page_count] shows
    the total page count less the size of the exclusion set, not below
    zero, while a merge of the list writes the total less the excluded
    numbers that name a page. The count shown is therefore never above
    the number of pages written, and equals it when every excluded
    number lies between 1 and the total. *)
Theorem X8_page_count_shown_and_pages_written
    {page : Type} `{!PdfLibrary page}
    (g : PdfMergerApp.gui) (docs : list (list page)) (output : string) :
  let total := length (concat docs) in
  let E := excluded_of g in
  let shown := Z.max (Z.of_nat total - Z.of_nat (size E)) 0 in
  let s := fst (MergeWorker.run (job_of g output) (MergeWorker.boot (PdfMergerApp.env g))) in
  all_readable (PdfMergerApp.env g) (PdfMergerApp.get_files (PdfMergerApp.self g)) docs →
  snd (PdfMergerApp.update_page_count g) = Ok tt
  ∧ PdfMergerApp.page_count_label (PdfMergerApp.self (fst (PdfMergerApp.update_page_count g)))
    = "Total pages: " +:+ pretty shown
  ∧ (length (MergeWorker.writer s) + excluded_within E 1 total = total)%nat
  ∧ (shown ≤ Z.of_nat (length (MergeWorker.writer s)))%Z
  ∧ ((∀ z, z ∈ E → (1 ≤ z ≤ Z.of_nat total)%Z) →
     shown = Z.of_nat (length (MergeWorker.writer s))).
Proof.
  intros total E shown s Hread. subst s. rewrite run_spec. cbn [fst].
  rewrite update_page_count_spec, (sum_pages_readable _ _ _ 0 Hread). cbn [fst snd].
  destruct (all_readable_spec _ _ _ Hread) as (_ & _ & Hpages).
  assert (Hwriter : MergeWorker.writer (run_outcome (PdfMergerApp.env g) (job_of g output))
                    = kept_from E 1 (concat docs)).
  { unfold run_outcome, job_of. simpl. by rewrite Hpages. }
  pose proof (kept_from_count E 1 (concat docs)) as Hcount. fold total in Hcount.
  pose proof (excluded_within_le E 1 total) as Hle.
  rewrite Hwriter. split_and!.
  - done.
  - done.
  - done.
  - unfold shown. lia.
  - intros Hrange. unfold shown.
    rewrite <- (excluded_within_all E 1 total); [lia|].
    intros z Hz. specialize (Hrange z Hz). lia.
Qed.

Lemma X8_page_count_shown_and_pages_written_witness :
  let g := {| PdfMergerApp.env := sample_world [2; 9];
              PdfMergerApp.self :=
                PdfMergerApp.set_list_widget
                  [PdfMergerApp.item_text "a.pdf" 2; PdfMergerApp.item_text "b.pdf" 3]
                  (PdfMergerApp.init 0%nat) |} in
  let s := fst (MergeWorker.run (job_of g "out.pdf") (MergeWorker.boot (PdfMergerApp.env g))) in
  PdfMergerApp.page_count_label (PdfMergerApp.self (fst (PdfMergerApp.update_page_count g)))
  = "Total pages: 3"
  ∧ length (MergeWorker.writer s) = 4%nat.
Proof.
  intros g s.
  destruct (X8_page_count_shown_and_pages_written g [[x01; x02]; [x03; x04; x05]] "out.pdf")
    as (_ & Hlabel & _).
  - repeat constructor.
  - split; [|by_compute]. etransitivity; [exact Hlabel|]. by_compute.
Defined.

(** ** The last percentage *)

(** [n / n] is the float 1.0, for every positive [n]. *)
Lemma round_binary64_diag n :
  (0 < n)%Z → round_binary64 n n = {| mantissa := 2 ^ 52; exponent := -52 |}.
Proof.
  intros Hn. unfold round_binary64.
  replace (Z.log2 n - Z.log2 n - 52)%Z with (-52)%Z by lia.
  change (scaled n n (-52)) with (n * 2 ^ 52, n)%Z. cbn [fst snd].
  rewrite (proj2 (Z.ltb_ge (n * 2 ^ 52) (2 ^ 52 * n))) by lia.
  change (scaled n n (-52)) with (n * 2 ^ 52, n)%Z. cbn [fst snd].
  assert (Hnearest : nearest_even (n * 2 ^ 52) n = (2 ^ 52)%Z).
  { unfold nearest_even.
    rewrite (Z.mul_comm n), Z.div_mul, Z.mod_mul by lia.
    change (2 * 0)%Z with 0%Z. by rewrite (proj2 (Z.compare_lt_iff 0 n) Hn). }
  rewrite Hnearest. done.
Qed.

Lemma percent_value_last n : (0 < n)%Z → percent_value (n - 1) n = 100%Z.
Proof.
  intros Hn. unfold percent_value. replace (n - 1 + 1)%Z with n by lia.
  rewrite round_binary64_diag by done. by_compute.
Qed.

Lemma seqZ_snoc m : (0 < m)%Z → seqZ 0 m = seqZ 0 (m - 1) ++ [(m - 1)%Z].
Proof.
  intros Hm. replace m with ((m - 1) + 1)%Z at 1 by lia.
  rewrite seqZ_app by lia. by f_equal.
Qed.

(** X9: a merge whose sources can all be read, of however many files,
    ends its progress signals with 100 and "Merging file n of n": the
    last quotient is exactly 1.0, and 1.0 times 100 is exactly 100. *)
Theorem X9_last_progress_signal_carries_100
    {page : Type} `{!PdfLibrary page} (job : MergeWorker.t) (w : world) :
  let s := fst (MergeWorker.run job (MergeWorker.boot w)) in
  let n := MergeWorker.total_files job in
  first_read_error w (MergeWorker.files job) = None →
  MergeWorker.files job ≠ [] →
  last (progress_events (MergeWorker.emitted s))
  = Some (100%Z, "Merging file " +:+ pretty n +:+ " of " +:+ pretty n).
Proof.
  intros s n Hread Hfiles. subst s. rewrite run_spec. cbn [fst].
  rewrite progress_events_run, (readable_sources_all _ _ Hread).
  assert (Hn : (0 < n)%Z).
  { unfold n, MergeWorker.total_files. destruct (MergeWorker.files job); [done|]. simpl. lia. }
  fold n. unfold MergeWorker.total_files in n. fold n.
  rewrite (seqZ_snoc n Hn), fmap_app. cbn [fmap list_fmap]. rewrite last_snoc.
  rewrite percent_value_last by done. unfold status_of.
  by replace (n - 1 + 1)%Z with n by lia.
Qed.

Lemma X9_last_progress_signal_carries_100_witness :
  let s := fst (MergeWorker.run sample_job (MergeWorker.boot (sample_world [3]))) in
  last (progress_events (MergeWorker.emitted s)) = Some (100%Z, "Merging file 3 of 3").
Proof.
  intros s.
  apply (X9_last_progress_signal_carries_100 sample_job (sample_world [3])).
  - by_compute.
  - discriminate.
Defined.

(** ** The preview *)

Section Preview.
Context {page : Type} `{!PdfLibrary page}.
Import Shell.

Lemma preview_pages_spec (E : gset Z) pages (s : locals page) :
  for_each pages (preview_page E) s =
  ({| writer := writer s ++ kept_from E (current_page s) (fetched pages);
      current_page := current_page s + Z.of_nat (length (fetched pages)) |},
   match first_failure pages with
   | None => Ok tt
   | Some e => Raise e
   end).
Proof.
  revert s. induction pages as [|[p|e] pages IH]; intros [wr c]; simpl.
  - unfold py_ret. rewrite kept_from_nil, app_nil_r. f_equal. f_equal. lia.
  - unfold py_bind at 1. unfold preview_page, py_bind, py_lift, py_get, py_modify. simpl.
    rewrite kept_from_cons. case_bool_decide; simpl.
    + rewrite IH. simpl. f_equal. f_equal. lia.
    + rewrite IH. simpl. rewrite <- app_assoc. simpl. f_equal. f_equal. lia.
  - unfold py_bind, preview_page, py_lift. simpl.
    rewrite kept_from_nil, app_nil_r. f_equal. f_equal. lia.
Qed.

Lemma preview_files_spec (w : world) (E : gset Z) paths (s : locals page) :
  for_each paths (preview_file w E) s =
  ({| writer := writer s ++ kept_from E (current_page s) (pages_fetched w paths);
      current_page := current_page s + Z.of_nat (length (pages_fetched w paths)) |},
   match first_read_error w paths with
   | None => Ok tt
   | Some e => Raise e
   end).
Proof.
  revert s. induction paths as [|path rest IH]; intros [wr c]; simpl.
  - unfold py_ret. rewrite kept_from_nil, app_nil_r. f_equal. f_equal. lia.
  - unfold py_bind at 1. unfold preview_file at 1, py_bind, py_lift.
    unfold read_failure, source_pages.
    destruct (read_pages w path) as [pages|e]; simpl.
    + rewrite preview_pages_spec. simpl.
      destruct (first_failure pages) as [e|]; simpl; [done|].
      rewrite IH. simpl. rewrite kept_from_app, length_app, app_assoc.
      f_equal. f_equal. lia.
    + rewrite kept_from_nil, app_nil_r. f_equal. f_equal. lia.
Qed.

(** [preview_merged] in one equation. *)
Lemma preview_merged_spec (temp : string) (x : t) :
  let g := gui x in
  let w := PdfMergerApp.env g in
  let files := PdfMergerApp.get_files (PdfMergerApp.self g) in
  let pages := kept_from (excluded_of g) 1 (pages_fetched w files) in
  preview_merged temp x =
  if bool_decide (length (PdfMergerApp.list_widget (PdfMergerApp.self g)) < 2)%nat
  then (x, Ok tt)
  else match first_read_error w files with
       | Some e => (show (Critical "Preview Error" e) x, Ok tt)
       | None =>
           let x1 := on_world (λ _, written temp (write_pdf pages) w) x in
           match write_failure (fs w) temp with
           | Some e => (show (Critical "Preview Error" e) x1, Ok tt)
           | None => (open_url (File temp) (record_preview temp x1), Ok tt)
           end
       end.
Proof.
  intros g w files pages. unfold preview_merged, py_bind, py_get. fold g.
  case_bool_decide; [done|].
  unfold try_except. fold w files. rewrite preview_files_spec. simpl.
  destruct (first_read_error w files) as [e|]; [done|].
  rewrite write_pages_spec. fold (excluded_of g). fold pages.
  by destruct (write_failure (fs w) temp).
Qed.

End Preview.

(** X10: with two documents or more listed, a preview and a merge read
    the same sources in the same order and keep the same pages. When
    every source can be read, the preview file holds byte for byte what
    the merge puts at its destination, and the file is recorded and
    handed to the viewer; when a source fails, the preview shows the
    exception that the merge emits as its error, writes nothing and
    records nothing. With fewer than two documents a preview does
    nothing. *)
Theorem X10_preview_writes_what_the_merge_writes
    {page : Type} `{!PdfLibrary page} (x : Shell.t) (temp output : string) :
  let g := Shell.gui x in
  let w := PdfMergerApp.env g in
  let x' := fst (Shell.preview_merged temp x) in
  let s := fst (MergeWorker.run (job_of g output) (MergeWorker.boot w)) in
  ((length (PdfMergerApp.list_widget (PdfMergerApp.self g)) < 2)%nat →
   Shell.preview_merged temp x = (x, Ok tt))
  ∧ ((2 ≤ length (PdfMergerApp.list_widget (PdfMergerApp.self g)))%nat →
     temp ∉ unwritable (fs w) →
     output ∉ unwritable (fs w) →
     snd (Shell.preview_merged temp x) = Ok tt
     ∧ match first_read_error w (PdfMergerApp.get_files (PdfMergerApp.self g)) with
       | None =>
           contents (fs (PdfMergerApp.env (Shell.gui x'))) !! temp
           = Some (write_pdf (MergeWorker.writer s))
           ∧ contents (fs (MergeWorker.env s)) !! output
             = Some (write_pdf (MergeWorker.writer s))
           ∧ Shell.temp_preview_files x' = Shell.temp_preview_files x ++ [temp]
           ∧ Shell.opened x' = Shell.opened x ++ [Shell.File temp]
           ∧ Shell.dialogs x' = Shell.dialogs x
       | Some e =>
           x' = Shell.show (Shell.Critical "Preview Error" e) x
           ∧ last (MergeWorker.emitted s) = Some (error e)
       end).
Proof.
  intros g w x' s. subst x' s. rewrite preview_merged_spec, run_spec. fold g w.
  split.
  - intros Hfew. by rewrite bool_decide_eq_true_2.
  - intros Hmany Htemp Hout. rewrite bool_decide_eq_false_2 by lia.
    assert (Hlast : last_signal w (job_of g output)
              = match first_read_error w (PdfMergerApp.get_files (PdfMergerApp.self g)) with
                | Some e => error e
                | None => finished
                end).
    { unfold last_signal, job_of. simpl.
      destruct (first_read_error _ _); [done|]. by rewrite write_failure_writable. }
    unfold run_outcome. cbn [fst MergeWorker.env MergeWorker.writer MergeWorker.emitted].
    rewrite last_snoc, Hlast. unfold job_of, MergeWorker.init.
    cbn [MergeWorker.files MergeWorker.output MergeWorker.excluded_pages].
    destruct (first_read_error w (PdfMergerApp.get_files (PdfMergerApp.self g))) as [e|].
    + done.
    + rewrite (write_failure_writable _ _ Htemp), !written_writable by done. cbn.
      rewrite !lookup_insert_eq. done.
Qed.

Lemma X10_preview_writes_what_the_merge_writes_witness :
  let g := {| PdfMergerApp.env := sample_world [1; 4; 6];
              PdfMergerApp.self :=
                PdfMergerApp.set_list_widget
                  [PdfMergerApp.item_text "a.pdf" 2; PdfMergerApp.item_text "b.pdf" 3;
                   PdfMergerApp.item_text "c.pdf" 1]
                  (PdfMergerApp.init 0%nat) |} in
  let x' := fst (Shell.preview_merged "/tmp/tmpk3.pdf" (Shell.around g)) in
  contents (fs (PdfMergerApp.env (Shell.gui x'))) !! "/tmp/tmpk3.pdf" = Some [x02; x03; x05]
  ∧ Shell.temp_preview_files x' = ["/tmp/tmpk3.pdf"].
Proof.
  intros g x'.
  destruct (X10_preview_writes_what_the_merge_writes (Shell.around g) "/tmp/tmpk3.pdf" "out.pdf")
    as (_ & Hsame).
  destruct Hsame as (_ & Hcase).
  - simpl. lia.
  - by_compute.
  - by_compute.
  - replace (first_read_error (PdfMergerApp.env (Shell.gui (Shell.around g)))
               (PdfMergerApp.get_files (PdfMergerApp.self (Shell.gui (Shell.around g)))))
      with (@None exn) in Hcase by by_compute.
    destruct Hcase as (Hfile & _ & Hrecorded & _).
    split; [|exact Hrecorded].
    etransitivity; [exact Hfile|]. by_compute.
Defined.

(** ** Closing the window *)

Section Closing.
Context {page : Type} `{!PdfLibrary page}.
Import Shell.

Lemma remove_quietly_spec (removable : string → bool) (f : string) (x : t) :
  remove_quietly removable f x =
  (if bool_decide (contents (fs (PdfMergerApp.env (gui x))) !! f = None) then x
   else if removable f then on_world (remove_file f) x else x, Ok tt).
Proof.
  unfold remove_quietly, try_except, py_bind, py_get.
  case_bool_decide; [done|]. by destruct (removable f).
Qed.

Lemma remove_files_spec (removable : string → bool) (recorded : list string) (x : t) :
  let x' := fst (for_each recorded (remove_quietly removable) x) in
  snd (for_each recorded (remove_quietly removable) x) = Ok tt
  ∧ (∀ path, contents (fs (PdfMergerApp.env (gui x'))) !! path
             = if bool_decide (path ∈ recorded) && removable path then None
               else contents (fs (PdfMergerApp.env (gui x))) !! path)
  ∧ unwritable (fs (PdfMergerApp.env (gui x'))) = unwritable (fs (PdfMergerApp.env (gui x)))
  ∧ sets (PdfMergerApp.env (gui x')) = sets (PdfMergerApp.env (gui x))
  ∧ PdfMergerApp.self (gui x') = PdfMergerApp.self (gui x)
  ∧ temp_preview_files x' = temp_preview_files x
  ∧ (progress_bar x', progress_text x', open_folder_cb x')
    = (progress_bar x, progress_text x, open_folder_cb x)
  ∧ dialogs x' = dialogs x
  ∧ opened x' = opened x.
Proof.
  revert x. induction recorded as [|f rest IH]; intros x.
  - simpl. by split_and!.
  - cbn [for_each]. unfold py_bind. rewrite remove_quietly_spec.
    set (x1 := if bool_decide (contents (fs (PdfMergerApp.env (gui x))) !! f = None) then x
               else if removable f then on_world (remove_file f) x else x).
    destruct (IH x1)
      as (Hok & Hfiles & Hunw & Hsets & Hself & Htemp & Hbar & Hdialogs & Hopened).
    cbn zeta. split_and!.
    + done.
    + intros path. rewrite Hfiles. subst x1.
      destruct (decide (path = f)) as [->|Hne].
      * rewrite (bool_decide_eq_true_2 (f ∈ f :: rest)) by (apply elem_of_cons; by left).
        case_bool_decide as Hgone; simpl.
        { rewrite Hgone. by destruct (bool_decide (f ∈ rest)), (removable f). }
        destruct (removable f); simpl.
        { rewrite andb_true_r, lookup_delete_eq. by destruct (bool_decide (f ∈ rest)). }
        by rewrite andb_false_r.
      * assert (bool_decide (path ∈ f :: rest) = bool_decide (path ∈ rest)) as ->.
        { apply bool_decide_ext. rewrite elem_of_cons. split; [by intros [?|?] | by right]. }
        destruct (bool_decide (path ∈ rest) && removable path); [done|].
        case_bool_decide; [done|]. destruct (removable f); [|done].
        simpl. by rewrite lookup_delete_ne.
    + rewrite Hunw. subst x1. case_bool_decide; [done|]. by destruct (removable f).
    + rewrite Hsets. subst x1. case_bool_decide; [done|]. by destruct (removable f).
    + rewrite Hself. subst x1. case_bool_decide; [done|]. by destruct (removable f).
    + rewrite Htemp. subst x1. case_bool_decide; [done|]. by destruct (removable f).
    + rewrite Hbar. subst x1. case_bool_decide; [done|]. by destruct (removable f).
    + rewrite Hdialogs. subst x1. case_bool_decide; [done|]. by destruct (removable f).
    + rewrite Hopened. subst x1. case_bool_decide; [done|]. by destruct (removable f).
Qed.

End Closing.

(** X11: closing the window never raises. Every recorded preview file
    that the system lets go is gone afterwards; a file that was not
    recorded, or that cannot be removed, is as before; and the window,
    the set of excluded pages and the write permissions are not
    touched. *)
Theorem X11_closing_removes_the_recorded_previews
    (removable : string → bool) (x : Shell.t) :
  let files_of x := contents (fs (PdfMergerApp.env (Shell.gui x))) in
  let x' := fst (Shell.closeEvent removable x) in
  snd (Shell.closeEvent removable x) = Ok tt
  ∧ (∀ path, path ∈ Shell.temp_preview_files x → removable path = true →
             files_of x' !! path = None)
  ∧ (∀ path, path ∉ Shell.temp_preview_files x → files_of x' !! path = files_of x !! path)
  ∧ (∀ path, removable path = false → files_of x' !! path = files_of x !! path)
  ∧ unwritable (fs (PdfMergerApp.env (Shell.gui x')))
    = unwritable (fs (PdfMergerApp.env (Shell.gui x)))
  ∧ sets (PdfMergerApp.env (Shell.gui x')) = sets (PdfMergerApp.env (Shell.gui x))
  ∧ PdfMergerApp.self (Shell.gui x') = PdfMergerApp.self (Shell.gui x).
Proof.
  intros files_of x'. subst files_of x'. unfold Shell.closeEvent, py_bind, py_get.
  destruct (remove_files_spec removable (Shell.temp_preview_files x) x)
    as (Hok & Hfiles & Hunw & Hsets & Hself & _).
  split_and!; try done.
  - intros path Hin Hrem. by rewrite Hfiles, Hrem, bool_decide_eq_true_2.
  - intros path Hout. by rewrite Hfiles, bool_decide_eq_false_2.
  - intros path Hrem. by rewrite Hfiles, Hrem, andb_false_r.
Qed.

(** X12: a preview that succeeds, followed by closing the window, leaves
    the disk as it was before the preview, when the name picked for the
    preview was free and the system lets the file be removed. *)
Theorem X12_preview_then_close_restores_the_disk
    {page : Type} `{!PdfLibrary page}
    (removable : string → bool) (x : Shell.t) (temp : string) :
  let g := Shell.gui x in
  let w := PdfMergerApp.env g in
  (2 ≤ length (PdfMergerApp.list_widget (PdfMergerApp.self g)))%nat →
  first_read_error w (PdfMergerApp.get_files (PdfMergerApp.self g)) = None →
  temp ∉ unwritable (fs w) →
  contents (fs w) !! temp = None →
  (∀ f, f ∈ Shell.temp_preview_files x → contents (fs w) !! f = None) →
  removable temp = true →
  let x1 := fst (Shell.preview_merged temp x) in
  let x2 := fst (Shell.closeEvent removable x1) in
  contents (fs (PdfMergerApp.env (Shell.gui x1))) !! temp ≠ None
  ∧ contents (fs (PdfMergerApp.env (Shell.gui x2))) = contents (fs w)
  ∧ unwritable (fs (PdfMergerApp.env (Shell.gui x2))) = unwritable (fs w)
  ∧ sets (PdfMergerApp.env (Shell.gui x2)) = sets w.
Proof.
  intros g w Hmany Hread Htemp Hfree Hold Hrem x1 x2. subst x2 x1.
  rewrite preview_merged_spec. fold g w.
  rewrite bool_decide_eq_false_2 by lia. rewrite Hread.
  rewrite (write_failure_writable _ _ Htemp), written_writable by done. cbn [fst].
  unfold Shell.closeEvent, py_bind, py_get.
  set (x1 := Shell.open_url _ _).
  destruct (remove_files_spec removable (Shell.temp_preview_files x1) x1)
    as (_ & Hfiles & Hunw & Hsets & _).
  split_and!.
  - subst x1. cbn. by rewrite lookup_insert_eq.
  - apply map_eq. intros path. rewrite Hfiles. subst x1. cbn.
    destruct (decide (path = temp)) as [->|Hne].
    + rewrite bool_decide_eq_true_2 by (apply elem_of_app; right; by left).
      by rewrite Hrem, Hfree.
    + rewrite lookup_insert_ne by done.
      destruct (bool_decide _ && removable path) eqn:Hcase; [|done].
      apply andb_true_iff in Hcase as [Hin _]. apply bool_decide_eq_true_1 in Hin.
      apply elem_of_app in Hin as [Hin|Hin].
      * symmetry. by apply Hold.
      * apply list_elem_of_singleton in Hin. done.
  - by rewrite Hunw.
  - by rewrite Hsets.
Qed.

Lemma X12_preview_then_close_restores_the_disk_witness :
  let g := {| PdfMergerApp.env := sample_world [2];
              PdfMergerApp.self :=
                PdfMergerApp.set_list_widget
                  [PdfMergerApp.item_text "a.pdf" 2; PdfMergerApp.item_text "c.pdf" 1]
                  (PdfMergerApp.init 0%nat) |} in
  let x1 := fst (Shell.preview_merged "/tmp/tmpq7.pdf" (Shell.around g)) in
  let x2 := fst (Shell.closeEvent (λ _, true) x1) in
  contents (fs (PdfMergerApp.env (Shell.gui x1))) !! "/tmp/tmpq7.pdf" ≠ None
  ∧ contents (fs (PdfMergerApp.env (Shell.gui x2))) = contents (fs (sample_world [2])).
Proof.
  intros g x1 x2.
  destruct (X12_preview_then_close_restores_the_disk (λ _, true) (Shell.around g)
              "/tmp/tmpq7.pdf") as (Hthere & Hback & _).
  - simpl. lia.
  - by_compute.
  - by_compute.
  - by_compute.
  - intros f Hin. by apply elem_of_nil in Hin.
  - reflexivity.
  - split; [exact Hthere | exact Hback].
Defined.

(** ** The slots of the window *)

Lemma deliver_reports (output : string) (i n : Z) (m : nat) (x : Shell.t) :
  for_each (reports_from i n m) (Shell.deliver output) x =
  (match m with
   | O => x
   | S k => Shell.set_progress (percent_value (i + Z.of_nat k) n)
                               (status_of (i + Z.of_nat k) n) x
   end, Ok tt).
Proof.
  revert i x. induction m as [|m IH]; intros i x; [done|].
  rewrite reports_from_S. cbn [for_each]. unfold py_bind at 1.
  cbn [Shell.deliver]. unfold Shell.on_progress, py_modify at 1.
  rewrite IH. destruct m as [|k].
  - by replace (i + Z.of_nat 0) with i by lia.
  - replace (i + 1 + Z.of_nat k) with (i + Z.of_nat (S k)) by lia. done.
Qed.

Lemma for_each_snoc {St A} (xs : list A) (a : A) (body : A → py St unit) (s : St) :
  snd (for_each xs body s) = Ok tt →
  for_each (xs ++ [a]) body s = body a (fst (for_each xs body s)).
Proof.
  intros Hok. rewrite for_each_app.
  destruct (for_each xs body s) as [s' [[]|e]]; [|done]. simpl.
  unfold py_bind. by destruct (body a s') as [s'' [[]|e]].
Qed.

(** X13: the window after the signals of a whole run have been handled,
    in the order of their emission. No slot raises. After a run that
    ends well the bar is back at 0 with an empty text, one Success
    dialog is shown, and the folder of the destination is opened exactly
    when the box is checked. After a run that fails one Error dialog
    carries the exception, nothing is opened, and the bar and its text
    are not reset: they keep what the last source merged had set, or
    what they showed before the run when the first source failed. *)
Theorem X13_window_after_the_signals_of_a_run
    {page : Type} `{!PdfLibrary page} (w : world) (job : MergeWorker.t) (x : Shell.t) :
  let signals := MergeWorker.emitted (fst (MergeWorker.run job (MergeWorker.boot w))) in
  let x' := fst (for_each signals (Shell.deliver (MergeWorker.output job)) x) in
  snd (for_each signals (Shell.deliver (MergeWorker.output job)) x) = Ok tt
  ∧ Shell.gui x' = Shell.gui x
  ∧ Shell.temp_preview_files x' = Shell.temp_preview_files x
  ∧ match last signals with
    | Some finished =>
        Shell.progress_bar x' = 0
        ∧ Shell.progress_text x' = ""
        ∧ Shell.dialogs x'
          = Shell.dialogs x ++ [Shell.Information "Success" "PDFs merged successfully!"]
        ∧ Shell.opened x'
          = Shell.opened x ++ (if Shell.open_folder_cb x
                               then [Shell.FolderOf (MergeWorker.output job)] else [])
    | Some (error e) =>
        Shell.dialogs x' = Shell.dialogs x ++ [Shell.Critical "Error" e]
        ∧ Shell.opened x' = Shell.opened x
        ∧ (Shell.progress_bar x', Shell.progress_text x')
          = match length (readable_sources w (MergeWorker.files job)) with
            | O => (Shell.progress_bar x, Shell.progress_text x)
            | S k => (percent_value (Z.of_nat k) (MergeWorker.total_files job),
                      status_of (Z.of_nat k) (MergeWorker.total_files job))
            end
    | _ => False
    end.
Proof.
  intros signals x'. subst x' signals. rewrite run_spec.
  unfold run_outcome. cbn [fst MergeWorker.emitted]. rewrite last_snoc.
  rewrite for_each_snoc by (by rewrite deliver_reports).
  rewrite deliver_reports. cbn [fst].
  set (m := length (readable_sources w (MergeWorker.files job))).
  set (n := MergeWorker.total_files job).
  assert (Hlast : (∃ e, last_signal w job = error e) ∨ last_signal w job = finished).
  { unfold last_signal. destruct (first_read_error _ _); [eauto|].
    destruct (write_failure _ _); eauto. }
  destruct Hlast as [[e ->]| ->]; cbn [Shell.deliver].
  - unfold Shell.merge_error, py_modify. cbn [fst snd].
    destruct m as [|k]; by split_and!.
  - unfold Shell.merge_done, py_bind, py_modify, py_get. 
    destruct m as [|k]; cbn; destruct (Shell.open_folder_cb x); cbn;
      split_and!; try done; by rewrite app_nil_r.
Qed.

(** ** Adding documents *)

Section Adding.
Context {page : Type} `{!PdfLibrary page}.
Import PdfMergerApp.

Lemma sum_pages_snoc (w : world) (total : Z) (paths : list string) (path : string) :
  sum_pages w total (paths ++ [path]) =
  match sum_pages w total paths with
  | Ok t =>
      match count_pages w path with
      | Ok n => Ok (t + n)
      | Raise e => Raise e
      end
  | Raise e => Raise e
  end.
Proof.
  revert total. induction paths as [|f rest IH]; intros total; simpl.
  - by destruct (count_pages w path).
  - destruct (count_pages w f); [apply IH|done].
Qed.

(** [add_pdf] in one equation. *)
Lemma add_pdf_spec (path : string) (g : gui) :
  add_pdf path g =
  match count_pages (env g) path with
  | Raise e => (g, Raise e)
  | Ok n =>
      (update_page_count ;;; update_buttons)%py
        {| env := env g;
           self := set_list_widget (list_widget (self g) ++ [item_text path n]) (self g) |}
  end.
Proof.
  unfold add_pdf. unfold py_bind at 1. unfold py_get at 1.
  unfold py_bind at 1. unfold py_lift at 1.
  by destruct (count_pages (env g) path).
Qed.

Lemma add_pdf_list (path : string) (g : gui) :
  list_widget (self (fst (add_pdf path g))) =
  match count_pages (env g) path with
  | Raise e => list_widget (self g)
  | Ok n => list_widget (self g) ++ [item_text path n]
  end.
Proof.
  rewrite add_pdf_spec. destruct (count_pages (env g) path) as [n|e]; [|done].
  unfold py_bind.
  pose proof (update_page_count_widgets
    {| env := env g;
       self := set_list_widget (list_widget (self g) ++ [item_text path n]) (self g) |})
    as (Hlist & _).
  destruct (update_page_count _) as [g1 [[]|e]]; simpl in *; done.
Qed.

Lemma drop_filter (paths : list string) (g : gui) :
  Shell.dropEvent paths g = for_each (List.filter is_pdf_name paths) (add_pdf (page := page)) g.
Proof.
  revert g. induction paths as [|path rest IH]; intros g; [done|].
  cbn [Shell.dropEvent for_each List.filter]. fold (is_pdf_name path).
  destruct (is_pdf_name path); cbn [for_each]; unfold py_bind.
  - destruct (add_pdf path g) as [g1 [[]|e]]; [apply IH|done].
  - apply IH.
Qed.

Lemma drop_env (paths : list string) (g : gui) :
  env (fst (for_each paths (add_pdf (page := page)) g)) = env g.
Proof.
  revert g. induction paths as [|path rest IH]; intros g; [done|].
  cbn [for_each]. unfold py_bind. pose proof (add_pdf_env path g) as Henv.
  destruct (add_pdf path g) as [g1 [[]|e]]; simpl in *; [|done].
  by rewrite IH.
Qed.

Lemma drop_list (paths : list string) (g : gui) :
  ∃ added,
    list_widget (self (fst (for_each paths (add_pdf (page := page)) g)))
    = list_widget (self g) ++ added
    ∧ Forall (λ item, ∃ path n, path ∈ paths ∧ count_pages (env g) path = Ok n
                                ∧ item = item_text path n) added.
Proof.
  revert g. induction paths as [|path rest IH]; intros g.
  - exists []. by rewrite app_nil_r.
  - cbn [for_each]. unfold py_bind.
    pose proof (add_pdf_env path g) as Henv. pose proof (add_pdf_list path g) as Hlist.
    destruct (add_pdf path g) as [g1 [[]|e]]; simpl in *.
    + destruct (IH g1) as (added & Hadded & Hall). rewrite Henv in Hall.
      destruct (count_pages (env g) path) as [n|e] eqn:Hcount.
      * exists (item_text path n :: added). split.
        { by rewrite Hadded, Hlist, <- app_assoc. }
        constructor.
        { exists path, n. split_and!; [by left|done|done]. }
        eapply Forall_impl; [exact Hall|].
        intros item (p & k & Hin & Hk & ->). exists p, k. split_and!; [by right|done|done].
      * exists added. split; [by rewrite Hadded, Hlist|].
        eapply Forall_impl; [exact Hall|].
        intros item (p & k & Hin & Hk & ->). exists p, k. split_and!; [by right|done|done].
    + destruct (count_pages (env g) path) as [n|e'] eqn:Hcount.
      * exists [item_text path n]. split; [done|].
        constructor; [|done]. exists path, n. split_and!; [by left|done|done].
      * exists []. by rewrite app_nil_r.
Qed.

End Adding.

Lemma lower_app (a b : string) : lower (a +:+ b) = lower a +:+ lower b.
Proof. induction a as [|c a IH]; [done|]. simpl. by rewrite IH. Qed.

Lemma endswith_refl (s : string) : endswith s s = true.
Proof. destruct s; cbn [endswith]; by rewrite String.eqb_refl. Qed.

Lemma endswith_app (a b : string) : endswith (a +:+ b) b = true.
Proof.
  induction a as [|c a IH]; [apply endswith_refl|].
  change (String c a +:+ b) with (String c (a +:+ b)).
  cbn [endswith]. rewrite IH. apply orb_true_r.
Qed.

(** X14: what [add_pdf] does with a path. A file that cannot be read
    raises and leaves the window untouched. A file that can be read is
    always put at the end of the list, with its page count in the item
    text, whatever happens next; and when the documents listed before
    can all be read and the path has no "   [" in it, the call returns,
    the total shown grows by the page count of the new document, and
    the two buttons are enabled exactly when a document was listed
    before. *)
Theorem X14_adding_a_document
    {page : Type} `{!PdfLibrary page} (path : string) (g : PdfMergerApp.gui) :
  let g' := fst (PdfMergerApp.add_pdf path g) in
  match PdfMergerApp.count_pages (PdfMergerApp.env g) path with
  | Raise e => PdfMergerApp.add_pdf path g = (g, Raise e)
  | Ok n =>
      PdfMergerApp.list_widget (PdfMergerApp.self g')
      = PdfMergerApp.list_widget (PdfMergerApp.self g) ++ [PdfMergerApp.item_text path n]
      ∧ PdfMergerApp.env g' = PdfMergerApp.env g
      ∧ ∀ total,
          PdfMergerApp.sum_pages (PdfMergerApp.env g) 0
                                 (PdfMergerApp.get_files (PdfMergerApp.self g)) = Ok total →
          occurs "   [" path = false →
          snd (PdfMergerApp.add_pdf path g) = Ok tt
          ∧ PdfMergerApp.page_count_label (PdfMergerApp.self g')
            = "Total pages: " +:+ pretty (Z.max (total + n - Z.of_nat (size (excluded_of g))) 0)
          ∧ PdfMergerApp.merge_btn_enabled (PdfMergerApp.self g')
            = bool_decide (1 ≤ length (PdfMergerApp.list_widget (PdfMergerApp.self g)))%nat
          ∧ PdfMergerApp.preview_btn_enabled (PdfMergerApp.self g')
            = PdfMergerApp.merge_btn_enabled (PdfMergerApp.self g')
  end.
Proof.
  intros g'. subst g'.
  pose proof (add_pdf_list path g) as Hlist. pose proof (add_pdf_env path g) as Henv.
  pose proof (add_pdf_spec path g) as Hspec.
  destruct (PdfMergerApp.count_pages (PdfMergerApp.env g) path) as [n|e] eqn:Hcount; [|done].
  split_and!; [done|done|].
  intros total Htotal Hplain.
  set (a1 := PdfMergerApp.set_list_widget
               (PdfMergerApp.list_widget (PdfMergerApp.self g)
                ++ [PdfMergerApp.item_text path n]) (PdfMergerApp.self g)) in *.
  assert (Hfiles : PdfMergerApp.get_files a1
                   = PdfMergerApp.get_files (PdfMergerApp.self g) ++ [path]).
  { unfold PdfMergerApp.get_files, a1. cbn [PdfMergerApp.list_widget PdfMergerApp.set_list_widget].
    rewrite fmap_app. cbn [fmap list_fmap]. do 2 f_equal.
    change (before "   [" (PdfMergerApp.item_text path n))
      with (before item_sep (path +:+ item_sep +:+ (pretty n +:+ " pages]"))).
    by rewrite before_append_item_sep, (before_no_occurrence item_sep path Hplain). }
  assert (Hcounted :
    PdfMergerApp.update_page_count {| PdfMergerApp.env := PdfMergerApp.env g;
                                      PdfMergerApp.self := a1 |}
    = ({| PdfMergerApp.env := PdfMergerApp.env g;
          PdfMergerApp.self :=
            PdfMergerApp.set_page_count_label
              ("Total pages: " +:+
               pretty (Z.max (total + n - Z.of_nat (size (excluded_of g))) 0)) a1 |}, Ok tt)).
  { rewrite update_page_count_spec. cbn [PdfMergerApp.env PdfMergerApp.self].
    by rewrite Hfiles, sum_pages_snoc, Htotal, Hcount. }
  rewrite Hspec. unfold py_bind. rewrite Hcounted, update_buttons_spec.
  cbn. rewrite length_app. cbn. split_and!; try done.
  apply bool_decide_ext. lia.
Qed.

(** X15: a drop adds the dropped paths whose name in lower case ends
    with ".pdf", in the order of the drop, and stops at the first one
    that makes [add_pdf] raise; a name made of any stem and of an
    extension that is ".pdf" up to case passes the test. The disk and
    the excluded pages are not touched, and every item that the drop
    adds to the list is the item text of a dropped path that passes the
    test, with the page count of its file. *)
Theorem X15_drop_adds_the_pdf_named_files
    {page : Type} `{!PdfLibrary page} (paths : list string) (g : PdfMergerApp.gui) :
  let g' := fst (Shell.dropEvent paths g) in
  Shell.dropEvent paths g
  = for_each (List.filter is_pdf_name paths) (PdfMergerApp.add_pdf (page := page)) g
  ∧ (∀ stem ext, lower ext = ".pdf" → is_pdf_name (stem +:+ ext) = true)
  ∧ PdfMergerApp.env g' = PdfMergerApp.env g
  ∧ ∃ added,
      PdfMergerApp.list_widget (PdfMergerApp.self g')
      = PdfMergerApp.list_widget (PdfMergerApp.self g) ++ added
      ∧ Forall (λ item, ∃ path n,
                  path ∈ paths ∧ is_pdf_name path = true
                  ∧ PdfMergerApp.count_pages (PdfMergerApp.env g) path = Ok n
                  ∧ item = PdfMergerApp.item_text path n) added.
Proof.
  intros g'. subst g'. rewrite drop_filter. split_and!.
  - done.
  - intros stem ext Hext. unfold is_pdf_name. rewrite lower_app, Hext. apply endswith_app.
  - apply drop_env.
  - destruct (drop_list (List.filter is_pdf_name paths) g) as (added & Hadded & Hall).
    exists added. split; [done|].
    eapply Forall_impl; [exact Hall|].
    intros item (p & n & Hin & Hn & ->). exists p, n.
    apply list_elem_of_In, filter_In in Hin as [Hin Hpdf].
    split_and!; [by apply list_elem_of_In|done|done|done].
Qed.

(** ** Who changes the excluded pages *)

Section SetObjects.
Context {page : Type} `{!PdfLibrary page}.

(** No step of the worker changes a set object. *)
Lemma step_sets (job : MergeWorker.t) (s : MergeWorker.state page) at_ :
  sets (MergeWorker.env (fst (MergeWorker.step job (s, at_)))) = sets (MergeWorker.env s).
Proof.
  destruct (stopped_or_not (snd (MergeWorker.step job (s, at_)))) as [Hstop|Hrun].
  2: { by rewrite (step_env job s at_ Hrun). }
  destruct at_ as [i [|pdf rest]|i rest [|entry pages]|]; cbn [MergeWorker.step] in *.
  - unfold MergeWorker.guarded, py_bind, MergeWorker.save. rewrite write_pages_spec.
    destruct (written_frame (MergeWorker.output job) (write_pdf (MergeWorker.writer s))
                (MergeWorker.env s)) as (Hsets & _).
    by destruct (write_failure _ _).
  - unfold MergeWorker.open_reader, py_bind, py_get, py_lift.
    by destruct (read_pages (MergeWorker.env s) pdf).
  - unfold MergeWorker.guarded, MergeWorker.report, py_bind, py_lift.
    by destruct (percent_of i (MergeWorker.total_files job)).
  - unfold MergeWorker.guarded. pose proof (copy_pages_spec job [entry] s) as Hcopy.
    cbn [for_each] in Hcopy. unfold py_bind in Hcopy at 1.
    destruct (MergeWorker.copy_page job entry s) as [s' [[]|e]]; cbn.
    + unfold py_ret in Hcopy. by injection Hcopy as ->.
    + by injection Hcopy as ->.
  - done.
Qed.

Lemma act_sets (x : Session.t page) (a : Session.action) :
  a ≠ Session.ClickApply →
  sets (Session.shared (Session.act x a)) = sets (Session.shared x).
Proof.
  intros Hother. destruct a as [k|text| |path|rows|output].
  - unfold Session.act. destruct (Session.aborted x); [done|]. unfold Session.tick.
    destruct (Session.threads x !! k) as [[job [s at_]]|]; [|done].
    pose proof (step_sets job (Session.with_env (Session.shared x) s) at_) as Hsets.
    destruct (MergeWorker.step job (Session.with_env (Session.shared x) s, at_)) as [s' at'].
    exact Hsets.
  - unfold Session.act. destruct (Session.aborted x); [done|].
    by destruct (handle_frame (PdfMergerApp.on_self (PdfMergerApp.set_page_input text)) x)
      as [-> _].
  - done.
  - unfold Session.act. destruct (Session.aborted x); [done|].
    by destruct (handle_frame (PdfMergerApp.add_pdf path) x (add_pdf_env path)) as [-> _].
  - unfold Session.act. destruct (Session.aborted x); [done|].
    by destruct (handle_frame (PdfMergerApp.remove_selected rows) x (remove_selected_env rows))
      as [-> _].
  - by destruct (click_merge_threads x output) as [-> _].
Qed.

End SetObjects.

(** X16: only the Apply button changes the excluded pages. Whatever
    else happens in a session (documents added or removed, text typed
    in the page field, a merge started, steps of the worker), every set
    object holds afterwards what it held before; so the numbers excluded
    keep their meaning of positions in the old list when the list
    changes. *)
Theorem X16_only_apply_changes_the_excluded_pages
    {page : Type} `{!PdfLibrary page}
    (schedule : list Session.action) (x : Session.t page) :
  no_apply schedule = true →
  sets (Session.shared (Session.exec schedule x)) = sets (Session.shared x).
Proof.
  revert x. induction schedule as [|a rest IH]; intros x Hno; [done|].
  unfold no_apply in Hno. cbn [forallb] in Hno.
  apply andb_true_iff in Hno as [Ha Hrest].
  unfold Session.exec. cbn [foldl]. fold (Session.exec rest (Session.act x a)).
  rewrite (IH _ Hrest). apply act_sets. by destruct a.
Qed.

Lemma X16_only_apply_changes_the_excluded_pages_witness :
  sets (Session.shared
          (Session.exec [Session.RemoveSelected [0%nat]; Session.AddPdf "b.pdf";
                         Session.TypePages "2"; Session.Tick 0; Session.ClickMerge "again.pdf";
                         Session.Tick 1; Session.Tick 0]
                        launched_session))
  = sets (Session.shared launched_session).
Proof.
  apply (X16_only_apply_changes_the_excluded_pages
           [Session.RemoveSelected [0%nat]; Session.AddPdf "b.pdf";
            Session.TypePages "2"; Session.Tick 0; Session.ClickMerge "again.pdf";
            Session.Tick 1; Session.Tick 0] launched_session).
  reflexivity.
Defined.
